(** * Virtual IoT devices publishing over MQTT: model and properties

    Shallow embedding of [project1/virtual_device.py].

    - Python floats are modelled by exact rationals ([Q]); [round(x, n)]
      is decimal rounding to [n] places with ties to even.
    - The calls the module makes into its surroundings ([random.*],
      [datetime.now], [json.dumps], [mqtt_client.publish]) are answered by
      an environment record [Env]; each call consumes one answer, indexed
      by a call counter kept in the state.
    - Device objects live in a store indexed by reference, so that a
      registry or a thread can alias the same object; threads are
      interleaved by an explicit schedule. *)

From Stdlib Require Import ZArith QArith Qround Qminmax Qabs String Ascii Lia Lqa.
From stdpp Require Import base option list strings pretty.

(** ** Numbers *)

Module Num.

(** Nearest integer, ties to the even neighbour. *)
Definition round_half_even (x : Q) : Z :=
  let f := Qfloor x in
  match (x - inject_Z f ?= 1 # 2)%Q with
  | Lt => f
  | Gt => (f + 1)%Z
  | Eq => if Z.even f then f else (f + 1)%Z
  end.

Definition pow10 (ndigits : nat) : Z := (10 ^ Z.of_nat ndigits)%Z.

(** Python's [round(x, ndigits)] on a float. *)
Definition round (x : Q) (ndigits : nat) : Q :=
  (inject_Z (round_half_even (x * inject_Z (pow10 ndigits)))
   / inject_Z (pow10 ndigits))%Q.

(** [x] is a decimal with at most [ndigits] places. *)
Definition decimal_places (ndigits : nat) (x : Q) : Prop :=
  ∃ k : Z, (x == inject_Z k / inject_Z (pow10 ndigits))%Q.

End Num.

(** Python's [x < y] on numbers. *)
Definition Qlt_bool (x y : Q) : bool :=
  match (x ?= y)%Q with Lt => true | _ => false end.

(** ** Python values *)

(** What [json.dumps] is given: strings, floats, ints, booleans, dicts
    (insertion-ordered). *)
#[warnings="-register-all"]
Inductive json :=
| JStr (s : string)
| JNum (q : Q)
| JInt (z : Z)
| JBool (b : bool)
| JObj (fields : list (string * json)).


(** A naive [datetime]. *)
Record datetime := {
  year : Z; month : Z; day : Z;
  hour : Z; minute : Z; second : Z; microsecond : Z
}.

Definition digit (n : Z) : ascii := ascii_of_nat (48 + Z.to_nat (n mod 10)).

(** [width] decimal digits of [n], zero padded: ["%0<width>d" % n] for
    [0 <= n < 10 ^ width], which [datetime] guarantees of its fields. *)
Fixpoint zfill (width : nat) (n : Z) : string :=
  match width with
  | O => EmptyString
  | S w => zfill w (n / 10) +:+ String (digit n) EmptyString
  end.

(** [datetime.isoformat()]: [YYYY-MM-DDTHH:MM:SS], followed by [.ffffff]
    when the microsecond is not zero. *)
Definition isoformat (t : datetime) : string :=
  zfill 4 (year t) +:+ "-" +:+ zfill 2 (month t) +:+ "-" +:+ zfill 2 (day t)
  +:+ "T" +:+ zfill 2 (hour t) +:+ ":" +:+ zfill 2 (minute t)
  +:+ ":" +:+ zfill 2 (second t)
  +:+ (if (microsecond t =? 0)%Z then EmptyString else "." +:+ zfill 6 (microsecond t)).






(** Exceptions the module can meet, all of them subclasses of [Exception]
    ([str(e)] is [exn_str]). *)
Inductive exn :=
| NotImplementedError
| AttributeError (name : string)
| Exception (msg : string).

Definition exn_str (e : exn) : string :=
  match e with
  | NotImplementedError => EmptyString
  | AttributeError name => "object has no attribute '" +:+ name +:+ "'"
  | Exception msg => msg
  end.

Inductive result (A : Type) :=
| Ok (a : A)
| Raise (e : exn).
Arguments Ok {A} a.
Arguments Raise {A} e.

(** ** Objects *)

Abbreviation ref := nat (only parsing).
Abbreviation tid := nat (only parsing).
Abbreviation client := nat (only parsing).

(** The attributes each subclass adds in its [__init__]. *)
Inductive Attrs :=
| VirtualDevice_attrs
| TemperatureHumiditySensor_attrs (base_temp base_humidity : Q)
| LightSensor_attrs
| MotionSensor_attrs
| SmartSwitch_attrs (is_on : bool) (power_consumption : Q).

Record Device := {
  device_id : string;
  device_type : string;
  mqtt_client : client;
  publish_interval : Q;
  is_running : bool;
  thread : option tid;
  attrs : Attrs
}.

Definition with_is_running (b : bool) (d : Device) : Device :=
  {| device_id := device_id d; device_type := device_type d;
     mqtt_client := mqtt_client d; publish_interval := publish_interval d;
     is_running := b; thread := thread d; attrs := attrs d |}.

Definition with_thread (t : option tid) (d : Device) : Device :=
  {| device_id := device_id d; device_type := device_type d;
     mqtt_client := mqtt_client d; publish_interval := publish_interval d;
     is_running := is_running d; thread := t; attrs := attrs d |}.

Definition with_attrs (a : Attrs) (d : Device) : Device :=
  {| device_id := device_id d; device_type := device_type d;
     mqtt_client := mqtt_client d; publish_interval := publish_interval d;
     is_running := is_running d; thread := thread d; attrs := a |}.

(** [VirtualDevice.__init__] *)
Definition VirtualDevice (device_id device_type : string) (mqtt_client : client)
    (publish_interval : Q) : Device :=
  {| device_id := device_id; device_type := device_type;
     mqtt_client := mqtt_client; publish_interval := publish_interval;
     is_running := false; thread := None; attrs := VirtualDevice_attrs |}.

(** [TemperatureHumiditySensor.__init__] *)
Definition TemperatureHumiditySensor (device_id : string) (mqtt_client : client)
    (publish_interval : Q) : Device :=
  with_attrs (TemperatureHumiditySensor_attrs 25 60)
    (VirtualDevice device_id "temperature_humidity" mqtt_client publish_interval).

(** [LightSensor.__init__] *)
Definition LightSensor (device_id : string) (mqtt_client : client)
    (publish_interval : Q) : Device :=
  with_attrs LightSensor_attrs
    (VirtualDevice device_id "light" mqtt_client publish_interval).

(** [MotionSensor.__init__] *)
Definition MotionSensor (device_id : string) (mqtt_client : client)
    (publish_interval : Q) : Device :=
  with_attrs MotionSensor_attrs
    (VirtualDevice device_id "motion" mqtt_client publish_interval).

(** [SmartSwitch.__init__] *)
Definition SmartSwitch (device_id : string) (mqtt_client : client)
    (publish_interval : Q) : Device :=
  with_attrs (SmartSwitch_attrs false 0)
    (VirtualDevice device_id "smart_switch" mqtt_client publish_interval).

(** ** What a run leaves behind *)

Inductive level := INFO | WARNING | ERROR.

Inductive event :=
| Publish (c : client) (topic payload : string)
| Log (l : level) (msg : string)
| Sleep (secs : Q).

(** ** The surroundings *)

(** Answers of the library calls; the first argument is the number of
    calls answered before this one. *)
Record Env := {
  env_uniform : nat → Q → Q → Q;          (* random.uniform(a, b) *)
  env_choice : nat → nat → nat;            (* index picked by random.choice *)
  env_randint : nat → Z → Z → Z;           (* random.randint(a, b) *)
  env_random : nat → Q;                    (* random.random() *)
  env_now : nat → datetime;                (* datetime.now() *)
  env_dumps : json → string;               (* json.dumps(obj) *)
  env_publish : nat → client → string → string → option exn
    (* client.publish(topic, payload): [Some e] when it raises [e]; what it
       returns otherwise is not looked at by the module *)
}.

(** The ranges the [random] module documents. *)
Record EnvOk (env : Env) : Prop := {
  uniform_range : ∀ n a b, (a <= b)%Q →
    (a <= env_uniform env n a b <= b)%Q;
  choice_range : ∀ n len, 0 < len → env_choice env n len < len;
  randint_range : ∀ n a b, (a ≤ b)%Z → (a ≤ env_randint env n a b ≤ b)%Z;
  random_range : ∀ n, (0 <= env_random env n < 1)%Q
}.

(** ** Device methods

    A method of a device runs on the object itself ([self]), asks the
    surroundings ([asked] counts the calls answered so far) and leaves
    events ([out]); it returns or raises. *)

Record Ctx := { self : Device; asked : nat; out : list event }.

Definition M (A : Type) : Type := Ctx → result A * Ctx.

#[global] Instance M_ret : MRet M := λ A a c, (Ok a, c).

#[global] Instance M_bind : MBind M := λ A B f m c,
  match m c with
  | (Ok a, c') => f a c'
  | (Raise e, c') => (Raise e, c')
  end.

Definition raise {A} (e : exn) : M A := λ c, (Raise e, c).

(** [try: body except Exception as e: handler(e)] *)
Definition try_except {A} (body : M A) (handler : exn → M A) : M A := λ c,
  match body c with
  | (Ok a, c') => (Ok a, c')
  | (Raise e, c') => handler e c'
  end.

Definition get_self : M Device := λ c, (Ok (self c), c).

Definition set_self (d : Device) : M unit := λ c,
  (Ok tt, {| self := d; asked := asked c; out := out c |}).

Definition answered (c : Ctx) : Ctx :=
  {| self := self c; asked := S (asked c); out := out c |}.

Definition emit (e : event) : M unit := λ c,
  (Ok tt, {| self := self c; asked := asked c; out := out c ++ [e] |}).

Definition log (l : level) (msg : string) : M unit := emit (Log l msg).

Definition sleep (secs : Q) : M unit := emit (Sleep secs).

(** Attribute reads and writes of the subclasses. *)
Definition get_base_temp : M Q :=
  d ← get_self;
  match attrs d with
  | TemperatureHumiditySensor_attrs base_temp _ => mret base_temp
  | _ => raise (AttributeError "base_temp")
  end.

Definition get_base_humidity : M Q :=
  d ← get_self;
  match attrs d with
  | TemperatureHumiditySensor_attrs _ base_humidity => mret base_humidity
  | _ => raise (AttributeError "base_humidity")
  end.

Definition get_is_on : M bool :=
  d ← get_self;
  match attrs d with
  | SmartSwitch_attrs is_on _ => mret is_on
  | _ => raise (AttributeError "is_on")
  end.

Definition get_power_consumption : M Q :=
  d ← get_self;
  match attrs d with
  | SmartSwitch_attrs _ power_consumption => mret power_consumption
  | _ => raise (AttributeError "power_consumption")
  end.

Definition set_is_on (b : bool) : M unit :=
  d ← get_self;
  match attrs d with
  | SmartSwitch_attrs _ power_consumption =>
      set_self (with_attrs (SmartSwitch_attrs b power_consumption) d)
  | _ => raise (AttributeError "is_on")
  end.

Definition set_power_consumption (p : Q) : M unit :=
  d ← get_self;
  match attrs d with
  | SmartSwitch_attrs is_on _ =>
      set_self (with_attrs (SmartSwitch_attrs is_on p) d)
  | _ => raise (AttributeError "power_consumption")
  end.

Section Model.

Context (env : Env).

Definition random_uniform (a b : Q) : M Q := λ c,
  (Ok (env_uniform env (asked c) a b), answered c).

Definition random_choice {A} (seq : list A) (default : A) : M A := λ c,
  (Ok (nth (env_choice env (asked c) (length seq)) seq default), answered c).

Definition random_randint (a b : Z) : M Z := λ c,
  (Ok (env_randint env (asked c) a b), answered c).

Definition random_random : M Q := λ c,
  (Ok (env_random env (asked c)), answered c).

Definition datetime_now : M datetime := λ c,
  (Ok (env_now env (asked c)), answered c).

Definition json_dumps (obj : json) : string := env_dumps env obj.

(** [self.mqtt_client.publish(topic, payload)] *)
Definition publish (topic payload : string) : M unit := λ c,
  match env_publish env (asked c) (mqtt_client (self c)) topic payload with
  | None =>
      (Ok tt, {| self := self c; asked := S (asked c);
                 out := out c ++ [Publish (mqtt_client (self c)) topic payload] |})
  | Some e => (Raise e, answered c)
  end.

(** [TemperatureHumiditySensor.generate_data] *)
Definition TemperatureHumiditySensor_generate_data : M json :=
  temp_variation ← random_uniform (-2) 2;
  humidity_variation ← random_uniform (-5) 5;
  base_temp ← get_base_temp;
  let temperature := Num.round (base_temp + temp_variation) 1 in
  base_humidity ← get_base_humidity;
  let humidity :=
    Num.round (Qmax 0 (Qmin 100 (base_humidity + humidity_variation))) 1 in
  d ← get_self;
  now ← datetime_now;
  mret (JObj [
    ("device_id", JStr (device_id d));
    ("device_type", JStr (device_type d));
    ("timestamp", JStr (isoformat now));
    ("data", JObj [
      ("temperature", JNum temperature);
      ("humidity", JNum humidity);
      ("unit_temp", JStr "°C");
      ("unit_humidity", JStr "%")])]).

(** [LightSensor.generate_data] *)
Definition LightSensor_generate_data : M json :=
  now ← datetime_now;
  let current_hour := hour now in
  base_light ←
    (if (6 <=? current_hour)%Z && (current_hour <=? 18)%Z
     then u ← random_uniform (-200) 300; mret (500 + u)%Q
     else u ← random_uniform (-30) 50; mret (50 + u)%Q);
  let light_intensity := Qmax 0 (Num.round base_light 1) in
  d ← get_self;
  now ← datetime_now;
  mret (JObj [
    ("device_id", JStr (device_id d));
    ("device_type", JStr (device_type d));
    ("timestamp", JStr (isoformat now));
    ("data", JObj [
      ("light_intensity", JNum light_intensity);
      ("unit", JStr "lux")])]).

(** [MotionSensor.generate_data] *)
Definition MotionSensor_generate_data : M json :=
  motion_detected ← random_choice [true; false] false;
  d ← get_self;
  now ← datetime_now;
  detection_count ←
    (if motion_detected : bool then random_randint 0 5 else mret 0%Z);
  mret (JObj [
    ("device_id", JStr (device_id d));
    ("device_type", JStr (device_type d));
    ("timestamp", JStr (isoformat now));
    ("data", JObj [
      ("motion_detected", JBool motion_detected);
      ("detection_count", JInt detection_count)])]).

(** [SmartSwitch.generate_data] *)
Definition SmartSwitch_generate_data : M json :=
  r ← random_random;
  (if Qlt_bool r (1 # 10)
   then is_on ← get_is_on; set_is_on (negb is_on)
   else mret tt);;
  is_on ← get_is_on;
  (if is_on : bool
   then u ← random_uniform 5 100; set_power_consumption (Num.round u 2)
   else set_power_consumption 0);;
  d ← get_self;
  now ← datetime_now;
  is_on ← get_is_on;
  power_consumption ← get_power_consumption;
  mret (JObj [
    ("device_id", JStr (device_id d));
    ("device_type", JStr (device_type d));
    ("timestamp", JStr (isoformat now));
    ("data", JObj [
      ("switch_state", JStr (if is_on : bool then "ON" else "OFF"));
      ("power_consumption", JNum power_consumption);
      ("unit", JStr "W")])]).

(** [self.generate_data()]: dispatch on the class of [self]; the base
    class raises [NotImplementedError]. *)
Definition generate_data : M json :=
  d ← get_self;
  match attrs d with
  | VirtualDevice_attrs => raise NotImplementedError
  | TemperatureHumiditySensor_attrs _ _ => TemperatureHumiditySensor_generate_data
  | LightSensor_attrs => LightSensor_generate_data
  | MotionSensor_attrs => MotionSensor_generate_data
  | SmartSwitch_attrs _ _ => SmartSwitch_generate_data
  end.

Definition data_topic (d : Device) : string :=
  "devices/" +:+ device_type d +:+ "/" +:+ device_id d +:+ "/data".

(** Body of the [try] in [_run]. *)
Definition _run_try : M unit :=
  data ← generate_data;
  d ← get_self;
  let topic := data_topic d in
  let payload := json_dumps data in
  publish topic payload;;
  log INFO ("设备 " +:+ device_id d +:+ " 发送数据: " +:+ payload);;
  sleep (publish_interval d).

(** The [except Exception as e] clause of [_run]. *)
Definition _run_except (e : exn) : M unit :=
  d ← get_self;
  log ERROR ("设备 " +:+ device_id d +:+ " 发送数据错误: " +:+ exn_str e);;
  sleep 1.

(** One pass through the body of [while self.is_running]. *)
Definition _run_body : M unit := try_except _run_try _run_except.

End Model.

(** ** Threads, the manager and the control thread *)

(** Where a thread running [_run] stands: about to test
    [while self.is_running], inside the [try], or returned. *)
Inductive Pc := AtWhile | InTry | Finished.

#[global] Instance Pc_eq_dec : EqDecision Pc.
Proof. solve_decision. Defined.

(** [threading.Thread(target=self._run)], started. *)
Record Thread := { target : ref; pc : Pc }.

(** Calls the control thread makes on devices and on the manager. *)
Inductive call :=
| Start (r : ref)
| Stop (r : ref)
| AddDevice (r : ref)
| StartAll
| StopAll.

(** What the control thread has left to do inside the call it is in. *)
Inductive instr :=
| Call (c : call)
| Join (r : ref)
| LogInfo (msg : string).

(** Who moves next: the control thread or the thread with id [t]. *)
Inductive actor := Main | Loop (t : tid).

(** Who left an event: the control thread, or thread [t] running the loop
    of device [r]. *)
Inductive origin := FromMain | FromLoop (t : tid) (r : ref).

Record World := {
  store : list Device;            (* the device objects, by reference *)
  threads : list Thread;          (* every thread started so far, by id *)
  devices : list ref;             (* [manager.devices] *)
  env_calls : nat;                (* library calls answered so far *)
  trace : list (origin * event);  (* oldest first *)
  main : list instr;              (* rest of the call in progress *)
  todo : list call                (* calls the control thread makes next *)
}.

Definition set_store (s : list Device) (w : World) : World :=
  {| store := s; threads := threads w; devices := devices w;
     env_calls := env_calls w; trace := trace w; main := main w; todo := todo w |}.

Definition set_threads (ts : list Thread) (w : World) : World :=
  {| store := store w; threads := ts; devices := devices w;
     env_calls := env_calls w; trace := trace w; main := main w; todo := todo w |}.

Definition set_devices (ds : list ref) (w : World) : World :=
  {| store := store w; threads := threads w; devices := ds;
     env_calls := env_calls w; trace := trace w; main := main w; todo := todo w |}.

Definition set_env_calls (n : nat) (w : World) : World :=
  {| store := store w; threads := threads w; devices := devices w;
     env_calls := n; trace := trace w; main := main w; todo := todo w |}.

Definition add_trace (a : origin) (es : list event) (w : World) : World :=
  {| store := store w; threads := threads w; devices := devices w;
     env_calls := env_calls w; trace := trace w ++ map (pair a) es;
     main := main w; todo := todo w |}.

Definition set_main (k : list instr) (w : World) : World :=
  {| store := store w; threads := threads w; devices := devices w;
     env_calls := env_calls w; trace := trace w; main := k; todo := todo w |}.

Definition set_todo (cs : list call) (w : World) : World :=
  {| store := store w; threads := threads w; devices := devices w;
     env_calls := env_calls w; trace := trace w; main := main w; todo := cs |}.

(** [VirtualDevice.start]: the flag, the new thread, its start, the log
    line. The new thread gets the next free id. *)
Definition start (r : ref) (w : World) : option World :=
  d ← store w !! r;
  let t := length (threads w) in
  Some (add_trace FromMain [Log INFO ("虚拟设备 " +:+ device_id d +:+ " 已启动")]
       (set_threads (threads w ++ [{| target := r; pc := AtWhile |}])
       (set_store (<[r := with_thread (Some t) (with_is_running true d)]> (store w))
        w))).

(** [VirtualDevice.stop], first statement: [self.is_running = False]. *)
Definition stop_flag (r : ref) (w : World) : option World :=
  d ← store w !! r;
  Some (set_store (<[r := with_is_running false d]> (store w)) w).

(** [if self.thread: self.thread.join()] can go on: there is no thread, or
    the thread has returned. *)
Definition joined (r : ref) (w : World) : bool :=
  match store w !! r with
  | Some d =>
      match thread d with
      | None => true
      | Some t =>
          match threads w !! t with
          | Some th => bool_decide (pc th = Finished)
          | None => true
          end
      end
  | None => false
  end.

Definition stopped_msg (d : Device) : string :=
  "虚拟设备 " +:+ device_id d +:+ " 已停止".

(** [MQTTVirtualDeviceManager.add_device] *)
Definition add_device (r : ref) (w : World) : option World :=
  d ← store w !! r;
  Some (add_trace FromMain [Log INFO ("添加虚拟设备: " +:+ device_id d)]
       (set_devices (devices w ++ [r]) w)).

(** One step of the control thread: it enters the next call of its script,
    or goes on inside the call it is in; [start_all_devices] and
    [stop_all_devices] unfold into the calls of their [for] loops, [stop]
    into its three statements. [None]: nothing to do, or blocked in
    [join]. *)
Definition step_main (w : World) : option World :=
  match main w with
  | [] =>
      match todo w with
      | [] => None
      | c :: cs => Some (set_main [Call c] (set_todo cs w))
      end
  | Call (Start r) :: k => start r (set_main k w)
  | Call (Stop r) :: k =>
      d ← store w !! r;
      stop_flag r (set_main (Join r :: LogInfo (stopped_msg d) :: k) w)
  | Call (AddDevice r) :: k => add_device r (set_main k w)
  | Call StartAll :: k =>
      (* for device in self.devices: device.start() *)
      Some (set_main
              (map (λ r, Call (Start r)) (devices w)
               ++ LogInfo ("所有 " +:+ pretty (length (devices w))
                           +:+ " 个虚拟设备已启动") :: k) w)
  | Call StopAll :: k =>
      (* for device in self.devices: device.stop() *)
      Some (set_main
              (map (λ r, Call (Stop r)) (devices w)
               ++ LogInfo "所有虚拟设备已停止" :: k) w)
  | Join r :: k => if joined r w then Some (set_main k w) else None
  | LogInfo msg :: k => Some (add_trace FromMain [Log INFO msg] (set_main k w))
  end.

Definition set_pc (p : Pc) (th : Thread) : Thread :=
  {| target := target th; pc := p |}.

Section System.

Context (env : Env).

(** One step of thread [t], which runs [_run] of its target: the test of
    [while self.is_running], or one pass through the [try]/[except] with
    its sleep. *)
Definition step_thread (t : tid) (w : World) : option World :=
  th ← threads w !! t;
  d ← store w !! target th;
  match pc th with
  | AtWhile =>
      Some (set_threads
              (<[t := set_pc (if is_running d then InTry else Finished) th]>
                 (threads w)) w)
  | InTry =>
      let '(res, c) :=
        _run_body env {| self := d; asked := env_calls w; out := [] |} in
      Some (set_threads
              (<[t := set_pc (match res with
                              | Ok _ => AtWhile
                              | Raise _ => Finished
                              end) th]> (threads w))
           (add_trace (FromLoop t (target th)) (out c)
           (set_env_calls (asked c)
           (set_store (<[target th := self c]> (store w)) w))))
  | Finished => None
  end.

Definition step (a : actor) (w : World) : option World :=
  match a with
  | Main => step_main w
  | Loop t => step_thread t w
  end.

(** Run a schedule: who moves, in order. *)
Fixpoint run (sched : list actor) (w : World) : option World :=
  match sched with
  | [] => Some w
  | a :: sched' => w' ← step a w; run sched' w'
  end.

End System.

(** ** Observations *)

(** Thread [th] is inside the loop of device [r]. *)
Definition loops_on (r : ref) (th : Thread) : Prop :=
  target th = r ∧ pc th ≠ Finished.

#[global] Instance loops_on_dec r th : Decision (loops_on r th).
Proof. unfold loops_on. apply _. Defined.

(** Number of execution units running the loop of device [r]. *)
Definition loops (w : World) (r : ref) : nat :=
  length (filter (loops_on r) (threads w)).

Definition running (w : World) (r : ref) : option bool :=
  is_running <$> store w !! r.

(** The thread handle [self.thread] of the device at [r]. *)
Definition handle (w : World) (r : ref) : option tid :=
  d ← store w !! r; thread d.

(** The trace entry is a publish made by a loop of device [r]. *)
Definition publish_of (r : ref) (e : origin * event) : bool :=
  match e with
  | (FromLoop _ r', Publish _ _ _) => bool_decide (r' = r)
  | _ => false
  end.

Definition publishes (w : World) (r : ref) : list (origin * event) :=
  List.filter (publish_of r) (trace w).

(** The only thread that may still be looping on [r] is the one the
    device's handle names: what [start] on a fresh device gives. *)
Definition sole_loop (w : World) (r : ref) : Prop :=
  ∀ t th, threads w !! t = Some th → loops_on r th → handle w r = Some t.

(** The control thread is in, or past, calls that only stop devices. *)
Definition stop_instr (i : instr) : Prop :=
  match i with
  | Call (Stop _) | Join _ | LogInfo _ => True
  | Call _ => False
  end.

(** The call (re)starts device [r], or may: [StartAll] counts. *)
Definition starts (r : ref) (c : call) : Prop := c = Start r ∨ c = StartAll.

Definition never_starts (w : World) (r : ref) : Prop :=
  Forall (λ i, ∀ c, i = Call c → ¬ starts r c) (main w)
  ∧ Forall (λ c, ¬ starts r c) (todo w).

(** Some registered device already carries the id of the device at [r]. *)
Definition id_present (w : World) (r : ref) : Prop :=
  ∃ r' d d', r' ∈ devices w ∧ store w !! r' = Some d' ∧ store w !! r = Some d
             ∧ device_id d' = device_id d.

(** [d'] is [d] up to the attributes of the subclass. *)
Definition same_but_attrs (d d' : Device) : Prop := d' = with_attrs (attrs d') d.

(** The dict every [generate_data] builds. *)
Definition reading_of (d : Device) (now : datetime)
    (data : list (string * json)) : json :=
  JObj [("device_id", JStr (device_id d));
        ("device_type", JStr (device_type d));
        ("timestamp", JStr (isoformat now));
        ("data", JObj data)].

(** ** Invariants used in the proofs *)

(** Threads run on devices of the store, and a handle names a thread of
    its own device. *)
Definition well_formed (w : World) : Prop :=
  (∀ t th, threads w !! t = Some th → is_Some (store w !! target th))
  ∧ (∀ r d t, store w !! r = Some d → thread d = Some t →
       ∃ th, threads w !! t = Some th ∧ target th = r).

(** The control thread is inside calls that stop the devices [D]: each
    has at most the loop its handle names, its flag is down unless its
    [stop] is still to come, and it has no loop left unless its [stop] or
    its [join] is still to come. *)
Definition stopping (D : list ref) (w : World) : Prop :=
  Forall stop_instr (main w)
  ∧ ∀ r, r ∈ D →
      sole_loop w r
      ∧ (running w r = Some false ∨ Call (Stop r) ∈ main w)
      ∧ (loops w r = 0 ∨ Call (Stop r) ∈ main w ∨ Join r ∈ main w).

(** The call [c] stops exactly the devices [D]. *)
Definition stops (c : call) (D : list ref) (w : World) : Prop :=
  match c with
  | Stop r => D = [r]
  | StopAll => D = devices w
  | _ => False
  end.

(** Where a run stands with respect to the call [c] that the control
    thread makes next: not yet in it, in it, or past it. *)
Definition stop_phase (c : call) (rest : list call) (D : list ref)
    (w : World) : Prop :=
  ((main w = [] ∧ todo w = c :: rest ∨ main w = [Call c] ∧ todo w = rest)
   ∧ stops c D w ∧ ∀ r, r ∈ D → sole_loop w r)
  ∨ (todo w = rest ∧ stopping D w)
  ∨ length (todo w) < length rest.

(** ** A concrete environment and concrete worlds *)

Module Demo.

Definition dquote : string := String (ascii_of_nat 34) EmptyString.

Definition quote (s : string) : string := dquote +:+ s +:+ dquote.

(** A compact rendering, standing in for [json.dumps]. *)
Fixpoint dumps (j : json) : string :=
  match j with
  | JStr s => quote s
  | JNum q => pretty (Qnum q) +:+ "/" +:+ pretty (Zpos (Qden q))
  | JInt z => pretty z
  | JBool b => if b then "true" else "false"
  | JObj fields =>
      "{" +:+
      (fix members (fs : list (string * json)) : string :=
         match fs with
         | [] => EmptyString
         | [(k, v)] => quote k +:+ ": " +:+ dumps v
         | (k, v) :: rest => quote k +:+ ": " +:+ dumps v +:+ ", " +:+ members rest
         end) fields
      +:+ "}"
  end.

Definition noon (n : nat) : datetime :=
  {| year := 2025; month := 6; day := 1; hour := 12; minute := 30;
     second := Z.of_nat (n mod 60); microsecond := 250 |}.

(** Draws walk through their range with the call number; [publish] raises
    on the calls [fails] selects. *)
Definition env (fails : nat → bool) : Env :=
  {| env_uniform := λ n a b, (a + (b - a) * (Z.of_nat (n mod 5) # 4))%Q;
     env_choice := λ n len, n mod len;
     env_randint := λ n a b, (a + Z.of_nat n mod (b - a + 1))%Z;
     env_random := λ n, (Z.of_nat (n mod 20) # 20)%Q;
     env_now := noon;
     env_dumps := dumps;
     env_publish := λ n _ _ _,
       if fails n then Some (Exception "broker unreachable") else None |}.

Definition never : nat → bool := λ _, false.

Definition temp_sensor_001 : Device := TemperatureHumiditySensor "temp_sensor_001" 0 5.
Definition light_sensor_001 : Device := LightSensor "light_sensor_001" 0 8.
Definition motion_sensor_001 : Device := MotionSensor "motion_sensor_001" 0 10.
Definition smart_switch_001 : Device := SmartSwitch "smart_switch_001" 0 15.

(** Freshly constructed devices, nothing registered, nothing started. *)
Definition world (ds : list Device) (script : list call) : World :=
  {| store := ds; threads := []; devices := []; env_calls := 0;
     trace := []; main := []; todo := script |}.

Definition after (fails : nat → bool) (sched : list actor) (w : World) : World :=
  default w (run (env fails) sched w).

(** One sensor, started once; the script goes on with a second [start]. *)
Definition started_once : World := Eval vm_compute in
  after never [Main; Main] (world [temp_sensor_001] [Start 0; Start 0]).



(** Two device objects with one id; the first is registered. *)
Definition twins : World := Eval vm_compute in
  after never [Main; Main]
    (world [temp_sensor_001; TemperatureHumiditySensor "temp_sensor_001" 0 7]
           [AddDevice 0; AddDevice 1]).

(** Four devices registered and started, some passes made; [stop_all] is
    the next call. *)
Definition fleet_running : World := Eval vm_compute in
  after never
    (replicate 15 Main ++ [Loop 0; Loop 0; Loop 3; Loop 1; Loop 0])
    (world [temp_sensor_001; light_sensor_001; motion_sensor_001;
            smart_switch_001]
           [AddDevice 0; AddDevice 1; AddDevice 2; AddDevice 3;
            StartAll; StopAll]).

End Demo.

(** * The rest of the module *)

(** ** Control messages: the [on_message] callback *)

(** [s.split(sep)] for a separator of one character. *)
Fixpoint split (sep : ascii) (s : string) : list string :=
  match s with
  | EmptyString => [EmptyString]
  | String c s' =>
      if bool_decide (c = sep) then EmptyString :: split sep s'
      else match split sep s' with
           | h :: t => String c h :: t
           | [] => [String c EmptyString]
           end
  end.

(** Number of occurrences of [sep] in [s]. *)
Fixpoint occurs (sep : ascii) (s : string) : nat :=
  match s with
  | EmptyString => 0
  | String c s' => (if bool_decide (c = sep) then 1 else 0) + occurs sep s'
  end.

#[global] Instance result_ret : MRet result := λ A a, Ok a.

#[global] Instance result_bind : MBind result := λ A B f m,
  match m with
  | Ok a => f a
  | Raise e => Raise e
  end.

(** [l[i]] for an index that is not negative. The [IndexError] is kept as
    an [Exception] with its message: the module only ever takes [str(e)]. *)
Definition index {A} (l : list A) (i : nat) : result A :=
  match l !! i with
  | Some x => Ok x
  | None => Raise (Exception "list index out of range")
  end.

Section Control.

(** [json.loads(msg.payload.decode())] and the formatting of what it
    returns inside an f-string are the library's. *)
Context {command : Type}.
Context (loads : string → result command) (show : command → string).

(** Body of the [try] in [on_message]. *)
Definition on_message_try (topic payload : string) : result (list event) :=
  let topic_parts := split "/" topic in
  device_type ← index topic_parts 1;
  device_id ← index topic_parts 2;
  command ← loads payload;
  mret [Log INFO ("收到设备控制命令: " +:+ device_type +:+ "/" +:+ device_id
                  +:+ " -> " +:+ show command)].

(** [on_message(client, userdata, msg)]: what it logs. *)
Definition on_message (topic payload : string) : list event :=
  match on_message_try topic payload with
  | Ok es => es
  | Raise e => [Log ERROR ("处理控制命令错误: " +:+ exn_str e)]
  end.

End Control.

(** ** The control thread, case by case *)

(** The steps of [step_main], one constructor per case. *)
Inductive main_step (w : World) : World → Prop :=
| ms_enter c cs :
    main w = [] → todo w = c :: cs →
    main_step w (set_main [Call c] (set_todo cs w))
| ms_start r k d :
    main w = Call (Start r) :: k → store w !! r = Some d →
    main_step w
      (add_trace FromMain [Log INFO ("虚拟设备 " +:+ device_id d +:+ " 已启动")]
      (set_threads (threads w ++ [{| target := r; pc := AtWhile |}])
      (set_store (<[r := with_thread (Some (length (threads w)))
                           (with_is_running true d)]> (store w))
      (set_main k w))))
| ms_stop r k d :
    main w = Call (Stop r) :: k → store w !! r = Some d →
    main_step w
      (set_store (<[r := with_is_running false d]> (store w))
      (set_main (Join r :: LogInfo (stopped_msg d) :: k) w))
| ms_add r k d :
    main w = Call (AddDevice r) :: k → store w !! r = Some d →
    main_step w
      (add_trace FromMain [Log INFO ("添加虚拟设备: " +:+ device_id d)]
      (set_devices (devices w ++ [r]) (set_main k w)))
| ms_start_all k :
    main w = Call StartAll :: k →
    main_step w
      (set_main (map (λ r, Call (Start r)) (devices w)
                 ++ LogInfo ("所有 " +:+ pretty (length (devices w))
                             +:+ " 个虚拟设备已启动") :: k) w)
| ms_stop_all k :
    main w = Call StopAll :: k →
    main_step w
      (set_main (map (λ r, Call (Stop r)) (devices w)
                 ++ LogInfo "所有虚拟设备已停止" :: k) w)
| ms_join r k :
    main w = Join r :: k → joined r w = true →
    main_step w (set_main k w)
| ms_log msg k :
    main w = LogInfo msg :: k →
    main_step w (add_trace FromMain [Log INFO msg] (set_main k w)).

(** ** The registry and the calls that are still to fill it *)

Definition added (c : call) : option ref :=
  match c with
  | AddDevice r => Some r
  | _ => None
  end.

Definition adds (i : instr) : option ref :=
  match i with
  | Call c => added c
  | _ => None
  end.

(** Devices the control thread has still to register, in order. *)
Definition pending (w : World) : list ref :=
  omap adds (main w) ++ omap added (todo w).

(** ** Device objects along a run *)

(** The class writes none of its attributes in [generate_data]: every
    class but [SmartSwitch]. *)
Definition stateless (d : Device) : Prop :=
  match attrs d with
  | SmartSwitch_attrs _ _ => False
  | _ => True
  end.


(** ** The trace along a run *)

(** Where a trace entry can come from: the control thread only logs at
    level INFO; a loop thread works for the device it was started on,
    publishes to that device's client on that device's topic, sleeps one
    second or the device's interval, and logs at INFO or ERROR. *)
Definition event_ok (w : World) (e : origin * event) : Prop :=
  match e with
  | (FromMain, Log INFO _) => True
  | (FromMain, _) => False
  | (FromLoop t r, ev) =>
      ∃ th d, threads w !! t = Some th ∧ target th = r ∧ store w !! r = Some d
        ∧ match ev with
          | Publish c topic _ => c = mqtt_client d ∧ topic = data_topic d
          | Log l _ => l = INFO ∨ l = ERROR
          | Sleep secs => secs = 1%Q ∨ secs = publish_interval d
          end
  end.

(** The trace entry is a publish made by thread [t]. *)
Definition published_by (t : tid) (e : origin * event) : bool :=
  match e with
  | (FromLoop t' _, Publish _ _ _) => bool_decide (t' = t)
  | _ => false
  end.

Definition published (w : World) (t : tid) : nat :=
  length (List.filter (published_by t) (trace w)).

(** ** Starting the fleet and stopping it again *)

(** The control thread is inside [start_all_devices] on the registry [D]:
    the devices it has started have the one loop their handle names, the
    devices it has still to start have none. *)
Definition starting (D : list ref) (w : World) : Prop :=
  ∃ started waiting msg,
    D = started ++ waiting
    ∧ main w = map (λ r, Call (Start r)) waiting ++ [LogInfo msg]
    ∧ (∀ r, r ∈ started → sole_loop w r)
    ∧ (∀ r, r ∈ waiting → loops w r = 0).

(** Where a run stands that begins before [start_all_devices] and goes on
    with [stop_all_devices]. *)
Definition fleet_phase (rest : list call) (D : list ref) (w : World) : Prop :=
  ((main w = [] ∧ todo w = StartAll :: StopAll :: rest
    ∨ main w = [Call StartAll] ∧ todo w = StopAll :: rest)
   ∧ devices w = D ∧ ∀ r, r ∈ D → loops w r = 0)
  ∨ (todo w = StopAll :: rest ∧ devices w = D ∧ starting D w)
  ∨ stop_phase StopAll rest D w.

(** ** More concrete worlds *)

Module Scene.

(** A stand-in for [json.loads]: it knows the empty object. *)
Definition loads (payload : string) : result json :=
  if bool_decide (payload = "{}") then Ok (JObj [])
  else Raise (Exception "Expecting value: line 1 column 1 (char 0)").

Definition fleet : list Device :=
  [Demo.temp_sensor_001; Demo.light_sensor_001; Demo.motion_sensor_001;
   Demo.smart_switch_001].

Definition script : list call :=
  [AddDevice 0; AddDevice 1; AddDevice 2; AddDevice 3; StartAll; StopAll].

(** The schedule that leads to [Demo.fleet_running]. *)
Definition busy : list actor :=
  replicate 15 Main ++ [Loop 0; Loop 0; Loop 3; Loop 1; Loop 0].

(** The four devices registered; [start_all] and [stop_all] to come. *)
Definition registered : World := Eval vm_compute in
  Demo.after Demo.never (replicate 8 Main) (Demo.world fleet script).

(** One sensor registered twice; [start_all] to come. *)
Definition registered_twice : World := Eval vm_compute in
  Demo.after Demo.never (replicate 4 Main)
    (Demo.world [Demo.temp_sensor_001] [AddDevice 0; AddDevice 0; StartAll]).

(** A device of the base class. *)
Definition plain_001 : Device := VirtualDevice "plain_001" "plain" 0 5.

(** The device of the base class started, inside its first pass. *)
Definition plain_in_try : World := Eval vm_compute in
  Demo.after Demo.never [Main; Main; Loop 0] (Demo.world [plain_001] [Start 0]).

(** The sensor inside a pass, [stop] having just lowered its flag. *)
Definition flag_down : World := Eval vm_compute in
  Demo.after Demo.never [Main; Main; Loop 0; Main; Main]
    (Demo.world [Demo.temp_sensor_001] [Start 0; Stop 0]).

End Scene.

(** * Properties *)

(** ** Rounding *)

Module NumFacts.
Import Num.

Lemma pow10_pos n : (0 < pow10 n)%Z.
Proof. unfold pow10. apply Z.pow_pos_nonneg; lia. Qed.

Lemma pow10_Qpos n : (0 < inject_Z (pow10 n))%Q.
Proof. rewrite <- (Zlt_Qlt 0). apply pow10_pos. Qed.

Lemma floor_lb (a : Z) (x : Q) : (inject_Z a <= x)%Q → (a ≤ Qfloor x)%Z.
Proof.
  intros H. rewrite <- (Qfloor_Z a). by apply Qfloor_resp_le.
Qed.

Lemma floor_lt (b : Z) (x : Q) : (x < inject_Z b)%Q → (Qfloor x < b)%Z.
Proof.
  intros H. rewrite Zlt_Qlt.
  eapply Qle_lt_trans; [apply Qfloor_le | exact H].
Qed.

Lemma round_half_even_floor x :
  (Qfloor x ≤ round_half_even x ≤ Qfloor x + 1)%Z.
Proof.
  unfold round_half_even.
  destruct (_ ?= _)%Q; [destruct (Z.even _) | |]; lia.
Qed.

Lemma round_half_even_lb (a : Z) (x : Q) :
  (inject_Z a <= x)%Q → (a ≤ round_half_even x)%Z.
Proof.
  intros H%floor_lb. pose proof (round_half_even_floor x). lia.
Qed.

Lemma frac_zero (b : Z) (x : Q) :
  (x == inject_Z b)%Q → round_half_even x = b.
Proof.
  intros E. unfold round_half_even.
  rewrite (Qfloor_comp _ _ E), Qfloor_Z.
  assert (Hlt : (x - inject_Z b < 1 # 2)%Q) by lra.
  rewrite Qlt_alt in Hlt. by rewrite Hlt.
Qed.

Lemma round_half_even_ub (b : Z) (x : Q) :
  (x <= inject_Z b)%Q → (round_half_even x ≤ b)%Z.
Proof.
  intros H. destruct (Qle_lt_or_eq _ _ H) as [Hlt | Heq].
  - apply floor_lt in Hlt. pose proof (round_half_even_floor x). lia.
  - by rewrite (frac_zero b x Heq).
Qed.



Lemma scaled_lb (a : Z) (x : Q) n :
  (inject_Z a <= x)%Q →
  (inject_Z (a * pow10 n) <= x * inject_Z (pow10 n))%Q.
Proof.
  intros H. rewrite inject_Z_mult.
  apply Qmult_le_compat_r; [exact H | apply Qlt_le_weak, pow10_Qpos].
Qed.

Lemma scaled_ub (b : Z) (x : Q) n :
  (x <= inject_Z b)%Q →
  (x * inject_Z (pow10 n) <= inject_Z (b * pow10 n))%Q.
Proof.
  intros H. rewrite inject_Z_mult.
  apply Qmult_le_compat_r; [exact H | apply Qlt_le_weak, pow10_Qpos].
Qed.

(** Rounding never leaves an interval with integer ends. *)
Lemma round_bounds (a b : Z) (x : Q) n :
  (inject_Z a <= x <= inject_Z b)%Q →
  (inject_Z a <= round x n <= inject_Z b)%Q.
Proof.
  intros [Ha Hb]. unfold round. pose proof (pow10_Qpos n) as HP. split.
  - apply Qle_shift_div_l; [exact HP |].
    rewrite <- inject_Z_mult, <- Zle_Qle.
    apply round_half_even_lb, scaled_lb, Ha.
  - apply Qle_shift_div_r; [exact HP |].
    rewrite <- inject_Z_mult, <- Zle_Qle.
    apply round_half_even_ub, scaled_ub, Hb.
Qed.


Lemma round_decimal_places x n : decimal_places n (round x n).
Proof. eexists. reflexivity. Qed.





End NumFacts.

(** ** The demo environment keeps the documented ranges *)

Lemma demo_env_ok fails : EnvOk (Demo.env fails).
Proof.
  split; unfold Demo.env;
    cbn [env_uniform env_choice env_randint env_random].
  - intros n a b Hab.
    set (q := (Z.of_nat (n mod 5) # 4)%Q).
    assert (Hk : (0 <= q <= 1)%Q).
    { pose proof (Nat.mod_upper_bound n 5 ltac:(lia)) as Hlt.
      unfold q, Qle; cbn [Qnum Qden]. lia. }
    assert (H1 : (0 <= (b - a) * q)%Q) by (apply Qmult_le_0_compat; lra).
    assert (H2 : (0 <= (b - a) * (1 - q))%Q) by (apply Qmult_le_0_compat; lra).
    split; lra.
  - intros n len Hlen. apply Nat.mod_upper_bound. lia.
  - intros n a b Hab.
    pose proof (Z.mod_pos_bound (Z.of_nat n) (b - a + 1) ltac:(lia)). lia.
  - intros n. pose proof (Nat.mod_upper_bound n 20 ltac:(lia)) as Hlt.
    unfold Qle, Qlt; cbn [Qnum Qden]. lia.
Qed.

(** ** Reading generators *)

(** Unfold a device method down to the answers of the surroundings. *)
Ltac run_method :=
  cbv [generate_data TemperatureHumiditySensor_generate_data
       LightSensor_generate_data MotionSensor_generate_data
       SmartSwitch_generate_data
       get_self set_self get_base_temp get_base_humidity get_is_on
       get_power_consumption set_is_on set_power_consumption
       random_uniform random_choice random_randint random_random datetime_now
       raise answered mbind M_bind mret M_ret
       self asked out attrs with_attrs
       device_id device_type mqtt_client publish_interval is_running thread].

(** Name the parts of a context whose device has known attributes. *)
Tactic Notation "open_ctx" ident(c) "as" ident(n) ident(o) :=
  let d := fresh "d" in
  let a := fresh "a" in
  destruct c as [d n o]; destruct d as [? ? ? ? ? ? a];
  cbn [self attrs asked out device_id device_type] in *; subst a.

Lemma Qlt_bool_true x y : Qlt_bool x y = true ↔ (x < y)%Q.
Proof.
  unfold Qlt_bool. rewrite Qlt_alt. destruct (x ?= y)%Q; split; congruence.
Qed.

Lemma Qlt_bool_false x y : Qlt_bool x y = false ↔ (y <= x)%Q.
Proof.
  rewrite <- not_true_iff_false, Qlt_bool_true. split.
  - apply Qnot_lt_le.
  - apply Qle_not_lt.
Qed.

Section Generators.

Context (env : Env) (Henv : EnvOk env).

(** What every call of [generate_data] does, whatever the class: it
    touches nothing but the subclass attributes, emits nothing, and either
    returns a reading stamped during the call or raises
    [NotImplementedError] on the base class. *)
Lemma generate_data_inv (c c' : Ctx) (res : result json) :
  generate_data env c = (res, c') →
  out c' = out c ∧ asked c ≤ asked c' ∧ same_but_attrs (self c) (self c')
  ∧ match res with
    | Ok j => ∃ k data, asked c ≤ k < asked c'
                        ∧ j = reading_of (self c) (env_now env k) data
    | Raise e => e = NotImplementedError
                 ∧ attrs (self c) = VirtualDevice_attrs ∧ c' = c
    end.
Proof.
  destruct c as [d n o]. destruct d as [id ty cl iv rn th a].
  unfold same_but_attrs, reading_of. destruct a as [| bt bh | | | on p].
  - run_method. intros [= <- <-]. cbn. by repeat split.
  - run_method. intros [= <- <-]. cbn [self asked out].
    repeat split; [lia |]. eexists (S (S n)), _. split; [lia | reflexivity].
  - run_method.
    destruct ((6 <=? hour (env_now env n))%Z && (hour (env_now env n) <=? 18)%Z);
      intros [= <- <-]; cbn [self asked out];
      (repeat split; [lia |]); eexists (S (S n)), _;
      (split; [lia | reflexivity]).
  - run_method. cbn [length].
    destruct (nth (env_choice env n 2) [true; false] false);
      intros [= <- <-]; cbn [self asked out];
      (repeat split; [lia |]); eexists (S n), _;
      (split; [lia | reflexivity]).
  - run_method.
    destruct (Qlt_bool (env_random env n) (1 # 10)), on; cbn [negb];
      intros [= <- <-]; cbn [self asked out];
      (repeat split; [lia |]); eexists _, _;
      (split; [| reflexivity]); lia.
Qed.



(** C5. A motion reading has [detection_count = 0] when nothing was
    detected and a count between 0 and 5 when something was; the device
    object is left as it was. *)
Theorem motion_reading (c : Ctx) :
  attrs (self c) = MotionSensor_attrs →
  let motion_detected :=
    nth (env_choice env (asked c) 2) [true; false] false in
  let detection_count :=
    if motion_detected then env_randint env (S (S (asked c))) 0 5 else 0%Z in
  ∃ c' : Ctx,
    generate_data env c =
      (Ok (JObj [
         ("device_id", JStr (device_id (self c)));
         ("device_type", JStr (device_type (self c)));
         ("timestamp", JStr (isoformat (env_now env (S (asked c)))));
         ("data", JObj [
            ("motion_detected", JBool motion_detected);
            ("detection_count", JInt detection_count)])]), c')
    ∧ (motion_detected = false → detection_count = 0%Z)
    ∧ (motion_detected = true → (0 ≤ detection_count ≤ 5)%Z)
    ∧ self c' = self c
    ∧ out c' = out c.
Proof.
  intros Hattrs motion_detected detection_count. open_ctx c as n o.
  subst detection_count motion_detected.
  destruct (nth (env_choice env n 2) [true; false] false) eqn:E;
    (eexists; split; [run_method; cbn [length]; rewrite E; reflexivity |]).
  - split; [done |]. split; [| done].
    intros _. apply (randint_range env Henv). lia.
  - by repeat (split; [done |]).
Qed.

(** The switch, step by step: what [generate_data] returns and leaves. *)
Lemma smart_switch_run (d : Device) (n : nat) (o : list event)
    (is_on : bool) (power_consumption : Q) :
  attrs d = SmartSwitch_attrs is_on power_consumption →
  let r := env_random env n in
  let is_on' := if Qlt_bool r (1 # 10) then negb is_on else is_on in
  let power' := (if is_on' then Num.round (env_uniform env (S n) 5 100) 2
                 else 0)%Q in
  let now := env_now env (if is_on' then S (S n) else S n) in
  generate_data env {| self := d; asked := n; out := o |} =
    (Ok (JObj [
       ("device_id", JStr (device_id d));
       ("device_type", JStr (device_type d));
       ("timestamp", JStr (isoformat now));
       ("data", JObj [
          ("switch_state", JStr (if is_on' then "ON" else "OFF"));
          ("power_consumption", JNum power');
          ("unit", JStr "W")])]),
     {| self := with_attrs (SmartSwitch_attrs is_on' power') d;
        asked := if is_on' then S (S (S n)) else S (S n);
        out := o |}).
Proof.
  intros Hattrs r is_on' power' now.
  destruct d as [? ? ? ? ? ? a]. cbn [attrs] in Hattrs. subst a.
  subst now power' is_on'. run_method. fold r.
  destruct (Qlt_bool r (1 # 10)), is_on; reflexivity.
Qed.

End Generators.

(** ** The loop body *)

Section Loop.

Context (env : Env).

(** What one pass through the [try] does, by cases on the generator and
    on the transport: in every case the pass returns. *)
Lemma run_body_cases (c c1 : Ctx) (res : result json) :
  generate_data env c = (res, c1) →
  _run_body env c =
    match res with
    | Raise e =>
        (Ok tt, {| self := self c1; asked := asked c1;
                   out := out c ++ [Log ERROR ("设备 " +:+ device_id (self c)
                                       +:+ " 发送数据错误: " +:+ exn_str e);
                                    Sleep 1] |})
    | Ok data =>
        let topic := data_topic (self c) in
        let payload := json_dumps env data in
        match env_publish env (asked c1) (mqtt_client (self c)) topic payload with
        | None =>
            (Ok tt, {| self := self c1; asked := S (asked c1);
                       out := out c ++ [Publish (mqtt_client (self c)) topic payload;
                                        Log INFO ("设备 " +:+ device_id (self c)
                                           +:+ " 发送数据: " +:+ payload);
                                        Sleep (publish_interval (self c))] |})
        | Some e =>
            (Ok tt, {| self := self c1; asked := S (asked c1);
                       out := out c ++ [Log ERROR ("设备 " +:+ device_id (self c)
                                           +:+ " 发送数据错误: " +:+ exn_str e);
                                        Sleep 1] |})
        end
    end.
Proof.
  intros Hgen.
  destruct (generate_data_inv env c c1 res Hgen) as (Hout & _ & Hsame & _).
  destruct c as [d n o], c1 as [d1 n1 o1]. cbn [self asked out] in *. subst o1.
  assert (Hid : device_id d1 = device_id d) by (by rewrite Hsame).
  assert (Hty : device_type d1 = device_type d) by (by rewrite Hsame).
  assert (Hcl : mqtt_client d1 = mqtt_client d) by (by rewrite Hsame).
  assert (Hiv : publish_interval d1 = publish_interval d)
    by (by rewrite Hsame).
  unfold _run_body, try_except, _run_try.
  cbv [mbind M_bind]. rewrite Hgen.
  destruct res as [data | e].
  - cbv [get_self publish log sleep emit _run_except mbind M_bind data_topic
         self asked out answered].
    rewrite Hid, Hty, Hcl, Hiv.
    destruct (env_publish env n1 _ _ _);
      cbn [self asked out]; rewrite ?Hid, <- !app_assoc; reflexivity.
  - cbv [get_self log sleep emit _run_except mbind M_bind self asked out].
    rewrite Hid. by rewrite <- !app_assoc.
Qed.

Lemma run_body_returns (c : Ctx) : ∃ c', _run_body env c = (Ok tt, c').
Proof.
  destruct (generate_data env c) as [res c1] eqn:Hgen.
  rewrite (run_body_cases c c1 res Hgen). cbv zeta.
  repeat case_match; eauto.
Qed.

(** A pass changes nothing of the object but subclass attributes. *)
Lemma run_body_same (c c' : Ctx) (res : result unit) :
  _run_body env c = (res, c') →
  same_but_attrs (self c) (self c') ∧ asked c ≤ asked c'.
Proof.
  destruct (generate_data env c) as [r1 c1] eqn:Hgen.
  destruct (generate_data_inv env c c1 r1 Hgen) as (_ & Hle & Hsame & _).
  rewrite (run_body_cases c c1 r1 Hgen). cbv zeta.
  repeat case_match; intros [= <- <-]; cbn [self asked]; split; try done; lia.
Qed.

End Loop.

(** ** Steps of the system *)

Lemma same_but_attrs_refl d : same_but_attrs d d.
Proof. by destruct d. Qed.

Lemma same_but_attrs_fields d d' :
  same_but_attrs d d' →
  device_id d' = device_id d ∧ device_type d' = device_type d
  ∧ mqtt_client d' = mqtt_client d ∧ publish_interval d' = publish_interval d
  ∧ is_running d' = is_running d ∧ thread d' = thread d.
Proof. intros ->. by destruct d. Qed.

Lemma filter_none {A} (P : A → Prop) `{∀ x, Decision (P x)} (l : list A) :
  Forall (λ x, ¬ P x) l → filter P l = [].
Proof. induction 1; [done |]. by rewrite filter_cons_False. Qed.

Lemma loops_zero (w : World) (r : ref) :
  loops w r = 0 ↔ ∀ t th, threads w !! t = Some th → ¬ loops_on r th.
Proof.
  unfold loops. rewrite length_zero_iff_nil. split.
  - intros Hnil t th Hth Hon.
    assert (Hin : th ∈ filter (loops_on r) (threads w)).
    { apply list_elem_of_filter. split; [done |].
      by apply list_elem_of_lookup_2 in Hth. }
    rewrite Hnil in Hin. by apply not_elem_of_nil in Hin.
  - intros Hnone. apply filter_none.
    apply Forall_forall. intros th [t Hth]%list_elem_of_lookup_1. eauto.
Qed.

Lemma loops_snoc (w : World) (r : ref) (ts : list Thread) (th : Thread) :
  threads w = ts ++ [th] →
  loops w r = length (filter (loops_on r) ts)
              + (if decide (loops_on r th) then 1 else 0).
Proof.
  intros E. unfold loops. rewrite E, filter_app, length_app.
  rewrite filter_cons, filter_nil. by destruct (decide (loops_on r th)).
Qed.

Section Steps.

Context (env : Env).

(** A step of a loop thread: the thread exists and has not returned; the
    control thread's state and the registry are untouched; the target keeps
    everything but subclass attributes. *)
Lemma step_thread_inv (t : tid) (w w' : World) :
  step_thread env t w = Some w' →
  ∃ th d p' d' es,
    threads w !! t = Some th ∧ store w !! target th = Some d
    ∧ pc th ≠ Finished
    ∧ main w' = main w ∧ todo w' = todo w ∧ devices w' = devices w
    ∧ threads w' = <[t := set_pc p' th]> (threads w)
    ∧ store w' = <[target th := d']> (store w)
    ∧ same_but_attrs d d'
    ∧ trace w' = trace w ++ map (pair (FromLoop t (target th))) es
    ∧ match pc th with
      | AtWhile => p' = (if is_running d then InTry else Finished)
                   ∧ d' = d ∧ es = []
      | InTry => p' = AtWhile
                 ∧ ∃ c, _run_body env {| self := d; asked := env_calls w;
                                         out := [] |} = (Ok tt, c)
                        ∧ d' = self c ∧ es = out c
      | Finished => False
      end.
Proof.
  unfold step_thread. intros Hstep.
  destruct (threads w !! t) as [th |] eqn:Hth; cbn in Hstep; [| done].
  destruct (store w !! target th) as [d |] eqn:Hd; cbn in Hstep; [| done].
  destruct (pc th) eqn:Hpc.
  - injection Hstep as <-. exists th, d, (if is_running d then InTry else Finished), d, [].
    rewrite Hpc. cbn [main todo devices threads store trace set_threads].
    rewrite (list_insert_id (store w)) by done. rewrite app_nil_r.
    repeat split; try done. apply same_but_attrs_refl.
  - destruct (run_body_returns env {| self := d; asked := env_calls w; out := [] |})
      as [c Hc].
    rewrite Hc in Hstep. injection Hstep as <-.
    exists th, d, AtWhile, (self c), (out c). rewrite Hpc.
    cbn [main todo devices threads store trace set_threads add_trace
         set_env_calls set_store].
    repeat split; try done.
    + by destruct (run_body_same env _ _ _ Hc).
    + eauto.
  - done.
Qed.

Lemma handle_insert (w : World) (r r' : ref) (d d' : Device) :
  store w !! r' = Some d → thread d' = thread d →
  (d0 ← <[r' := d']> (store w) !! r; thread d0) = handle w r.
Proof.
  intros Hd Hsame. unfold handle.
  destruct (decide (r = r')) as [-> | Hne].
  - rewrite list_lookup_insert_eq by (by eapply lookup_lt_Some).
    rewrite Hd. cbn. done.
  - by rewrite list_lookup_insert_ne.
Qed.

Lemma step_thread_handle (t : tid) (w w' : World) (r : ref) :
  step_thread env t w = Some w' → handle w' r = handle w r.
Proof.
  intros (th & d & p' & d' & es & _ & Hd & _ & _ & _ & _ & _ & Hs & Hsame & _)
    %step_thread_inv.
  unfold handle at 1. rewrite Hs. eapply handle_insert; [done |].
  by destruct (same_but_attrs_fields _ _ Hsame) as (_&_&_&_&_&->).
Qed.

Lemma step_thread_running (t : tid) (w w' : World) (r : ref) :
  step_thread env t w = Some w' → running w' r = running w r.
Proof.
  intros (th & d & p' & d' & es & _ & Hd & _ & _ & _ & _ & _ & Hs & Hsame & _)
    %step_thread_inv.
  unfold running. rewrite Hs.
  destruct (decide (r = target th)) as [-> | Hne].
  - rewrite list_lookup_insert_eq by (by eapply lookup_lt_Some).
    rewrite Hd. cbn. by destruct (same_but_attrs_fields _ _ Hsame) as (_&_&_&_&->&_).
  - by rewrite list_lookup_insert_ne.
Qed.

(** Threads after a thread step: the same ones, one of them moved. *)
Lemma step_thread_lookup (t t' : tid) (w w' : World) (th' : Thread) :
  step_thread env t w = Some w' → threads w' !! t' = Some th' →
  ∃ th, threads w !! t' = Some th ∧ target th' = target th
        ∧ (pc th = Finished → pc th' = Finished)
        ∧ (pc th' ≠ Finished → pc th ≠ Finished).
Proof.
  intros (th & d & p' & d' & es & Hth & _ & Hpc & _ & _ & _ & Hts & _)
    %step_thread_inv.
  rewrite Hts. destruct (decide (t' = t)) as [-> | Hne].
  - rewrite list_lookup_insert_eq by (by eapply lookup_lt_Some).
    intros [= <-]. exists th. by repeat split.
  - rewrite list_lookup_insert_ne by done. intros Hl. exists th'. by repeat split.
Qed.

Lemma step_thread_sole_loop (t : tid) (w w' : World) (r : ref) :
  step_thread env t w = Some w' → sole_loop w r → sole_loop w' r.
Proof.
  intros Hstep Hsole t' th' Hth' [Htgt Hpc].
  destruct (step_thread_lookup _ _ _ _ _ Hstep Hth')
    as (th & Hth & Heq & _ & Hlive).
  rewrite (step_thread_handle _ _ _ _ Hstep).
  apply (Hsole t' th Hth). split; [congruence | auto].
Qed.

Lemma step_thread_loops_zero (t : tid) (w w' : World) (r : ref) :
  step_thread env t w = Some w' → loops w r = 0 → loops w' r = 0.
Proof.
  rewrite !loops_zero. intros Hstep Hzero t' th' Hth' [Htgt Hpc].
  destruct (step_thread_lookup _ _ _ _ _ Hstep Hth')
    as (th & Hth & Heq & _ & Hlive).
  apply (Hzero t' th Hth). split; [congruence | auto].
Qed.

End Steps.

(** ** Stopping *)

Lemma joined_sole_loop (w : World) (r : ref) :
  joined r w = true → sole_loop w r → loops w r = 0.
Proof.
  unfold joined. intros Hj Hsole. apply loops_zero. intros t th Hth Hon.
  pose proof (Hsole t th Hth Hon) as Hh. unfold handle in Hh.
  destruct (store w !! r) as [d |]; [| done]. cbn in Hh. rewrite Hh, Hth in Hj.
  apply bool_decide_eq_true in Hj. by destruct Hon.
Qed.

Lemma sole_loop_ext (w w' : World) (r : ref) :
  threads w' = threads w → handle w' r = handle w r →
  sole_loop w r → sole_loop w' r.
Proof. unfold sole_loop. intros -> ->. done. Qed.

Lemma handle_flag (w : World) (r r' : ref) (d : Device) (b : bool) :
  store w !! r' = Some d →
  handle (set_store (<[r' := with_is_running b d]> (store w)) w) r = handle w r.
Proof.
  intros Hd. unfold handle. cbn [store set_store].
  by apply (handle_insert w r r' d).
Qed.

Lemma running_flag (w : World) (r r' : ref) (d : Device) (b : bool) :
  store w !! r' = Some d →
  running (set_store (<[r' := with_is_running b d]> (store w)) w) r
  = if decide (r = r') then Some b else running w r.
Proof.
  intros Hd. unfold running. cbn [store set_store].
  destruct (decide (r = r')) as [-> | Hne].
  - by rewrite list_lookup_insert_eq by (by eapply lookup_lt_Some).
  - by rewrite list_lookup_insert_ne.
Qed.

Section Stopping.

Context (env : Env).

Lemma stopping_thread (D : list ref) (t : tid) (w w' : World) :
  stopping D w → step_thread env t w = Some w' →
  stopping D w' ∧ todo w' = todo w ∧ main w' = main w.
Proof.
  intros [Hinstr HD] Hstep.
  pose proof (step_thread_inv env t w w' Hstep)
    as (_ & _ & _ & _ & _ & _ & _ & _ & Hmain & Htodo & _).
  split; [| done]. split; [by rewrite Hmain |].
  intros r Hr. destruct (HD r Hr) as (Hsole & Hrun & Hloops).
  rewrite Hmain, (step_thread_running env t w w' r Hstep).
  split; [by eapply step_thread_sole_loop |]. split; [done |].
  destruct Hloops as [Hz | Hin]; [| by right].
  left. by eapply step_thread_loops_zero.
Qed.

Lemma stopping_main (D : list ref) (w w' : World) :
  stopping D w → main w ≠ [] → step_main w = Some w' →
  stopping D w' ∧ todo w' = todo w.
Proof.
  intros [Hinstr HD] Hne. unfold step_main.
  destruct (main w) as [| i k] eqn:Hm; [done |].
  apply Forall_cons in Hinstr as [Hi Hk].
  destruct i as [[r' | r' | r' | |] | r' | msg]; try done.
  - (* self.is_running = False *)
    destruct (store w !! r') as [d |] eqn:Hd; [| done]. cbn.
    unfold stop_flag. cbn [store set_main]. rewrite Hd. cbn. intros [= <-].
    split; [| done]. split.
    { cbn [main set_store set_main]. by repeat constructor. }
    intros r Hr. destruct (HD r Hr) as (Hsole & Hrun & Hloops).
    cbn [main set_store set_main]. split; [| split].
    + eapply sole_loop_ext; [| | exact Hsole]; [done |].
      by apply (handle_flag (set_main _ w)).
    + rewrite (running_flag (set_main _ w)) by done.
      destruct (decide (r = r')) as [-> | Hrr]; [by left |].
      destruct Hrun as [Hf | Hin]; [by left |]. right.
      apply elem_of_cons in Hin as [[= ?] | Hin]; [done |].
      by do 2 apply list_elem_of_further.
    + destruct Hloops as [Hz | [Hin | Hin]].
      * by left.
      * apply elem_of_cons in Hin as [[= ->] | Hin].
        -- right; right. apply list_elem_of_here.
        -- right; left. by do 2 apply list_elem_of_further.
      * apply elem_of_cons in Hin as [[=] | Hin].
        right; right. by do 2 apply list_elem_of_further.
  - (* if self.thread: self.thread.join() *)
    destruct (joined r' w) eqn:Hj; [| done]. intros [= <-].
    split; [| done]. split; [done |].
    intros r Hr. destruct (HD r Hr) as (Hsole & Hrun & Hloops).
    cbn [main set_main]. split; [done |]. split.
    + destruct Hrun as [Hf | Hin]; [by left |]. right.
      by apply elem_of_cons in Hin as [[=] | Hin].
    + destruct Hloops as [Hz | [Hin | Hin]].
      * by left.
      * right; left. by apply elem_of_cons in Hin as [[=] | Hin].
      * apply elem_of_cons in Hin as [[= ->] | Hin]; [| by right; right].
        left. by apply joined_sole_loop.
  - (* logger.info *)
    intros [= <-]. split; [| done]. split; [done |].
    intros r Hr. destruct (HD r Hr) as (Hsole & Hrun & Hloops).
    cbn [main set_main add_trace]. split; [done |]. split.
    + destruct Hrun as [Hf | Hin]; [by left |]. right.
      by apply elem_of_cons in Hin as [[=] | Hin].
    + destruct Hloops as [Hz | [Hin | Hin]]; [by left | |].
      * right; left. by apply elem_of_cons in Hin as [[=] | Hin].
      * right; right. by apply elem_of_cons in Hin as [[=] | Hin].
Qed.

Lemma step_todo (a : actor) (w w' : World) :
  step env a w = Some w' → length (todo w') ≤ length (todo w).
Proof.
  destruct a as [| t]; cbn [step].
  - unfold step_main, start, stop_flag, add_device. intros Hstep.
    repeat case_match; simplify_option_eq; cbn; try lia.
    destruct (store w !! _); simplify_option_eq; cbn; lia.
  - intros (_ & _ & _ & _ & _ & _ & _ & _ & _ & -> & _)%step_thread_inv. lia.
Qed.

Lemma stop_phase_step (c : call) (rest : list call) (D : list ref)
    (a : actor) (w w' : World) :
  stop_phase c rest D w → step env a w = Some w' → stop_phase c rest D w'.
Proof.
  intros [(Hpos & Hstops & Hsole) | [[Htodo Hstopping] | Hpast]] Hstep.
  - destruct a as [| t]; cbn [step] in Hstep.
    + destruct Hpos as [[Hm Ht] | [Hm Ht]]; unfold step_main in Hstep;
        rewrite Hm in Hstep.
      * rewrite Ht in Hstep. injection Hstep as <-. left.
        split; [by right |]. split; [by destruct c |]. done.
      * right; left. destruct c as [r | r | r | |]; try done.
        -- cbn in Hstops. subst D.
           destruct (store w !! r) as [d |] eqn:Hd; [| done]. cbn in Hstep.
           unfold stop_flag in Hstep. cbn [store set_main] in Hstep.
           rewrite Hd in Hstep. injection Hstep as <-.
           split; [done |]. split; [by repeat constructor |].
           intros r' ->%list_elem_of_singleton.
           cbn [main set_store set_main]. split; [| split].
           ++ eapply sole_loop_ext; [| | apply Hsole]; [done | |].
              ** by apply (handle_flag (set_main _ w)).
              ** apply list_elem_of_here.
           ++ left. rewrite (running_flag (set_main _ w)) by done.
              by rewrite decide_True.
           ++ right; right. apply list_elem_of_here.
        -- cbn in Hstops. subst D. injection Hstep as <-.
           split; [done |]. cbn [main set_main]. split.
           { apply Forall_app. split; [| by repeat constructor].
             by apply Forall_map, Forall_true. }
           intros r Hr.
           assert (Hin : Call (Stop r)
                         ∈ map (λ r, Call (Stop r)) (devices w)
                           ++ [LogInfo "所有虚拟设备已停止"]).
           { apply elem_of_app. left. apply list_elem_of_fmap. eauto. }
           split; [by apply Hsole |]. split; [by right | right; by left].
    + pose proof (step_thread_inv env t w w' Hstep)
        as (_ & _ & _ & _ & _ & _ & _ & _ & Hmain & Ht & Hdev & _).
      left. rewrite Hmain, Ht. split; [done |].
      split; [destruct c; try done; cbn in *; congruence |].
      intros r Hr. eapply step_thread_sole_loop; eauto.
  - destruct a as [| t]; cbn [step] in Hstep.
    + destruct (main w) as [| i k] eqn:Hm.
      * right; right. unfold step_main in Hstep. rewrite Hm in Hstep.
        destruct (todo w) as [| c' cs]; [done |]. injection Hstep as <-.
        cbn [todo set_todo set_main]. subst rest. cbn. lia.
      * destruct (stopping_main D w w' Hstopping) as [Hs Ht];
          [by rewrite Hm | done |].
        right; left. split; [congruence | done].
    + destruct (stopping_thread D t w w' Hstopping Hstep) as (Hs & Ht & _).
      right; left. split; [congruence | done].
  - right; right. pose proof (step_todo a w w' Hstep). lia.
Qed.


(** Once the call has returned, every device it stopped is down. *)
Lemma stop_phase_returned (c : call) (rest : list call) (D : list ref)
    (w : World) :
  stop_phase c rest D w → main w = [] → todo w = rest →
  ∀ r, r ∈ D → running w r = Some false ∧ loops w r = 0.
Proof.
  intros [([[_ Ht] | [Hm _]] & _) | [[_ [_ HD]] | Hpast]] Hmain Htodo r Hr.
  - rewrite Htodo in Ht. apply (f_equal length) in Ht. cbn in Ht. lia.
  - by rewrite Hmain in Hm.
  - destruct (HD r Hr) as (_ & Hrun & Hloops). rewrite Hmain in *.
    split.
    + by destruct Hrun as [? | ?%not_elem_of_nil].
    + by destruct Hloops as [? | [?%not_elem_of_nil | ?%not_elem_of_nil]].
  - rewrite Htodo in Hpast. lia.
Qed.

End Stopping.

(** ** After the loops are down *)

Lemma publishes_app (w w' : World) (r : ref) (es : list (origin * event)) :
  trace w' = trace w ++ es → Forall (λ e, publish_of r e = false) es →
  publishes w' r = publishes w r.
Proof.
  intros E Hes. unfold publishes. rewrite E, List.filter_app. clear E.
  assert (Hnil : List.filter (publish_of r) es = []).
  { induction Hes as [| e es He _ IH]; [done |].
    cbn [List.filter]. by rewrite He. }
  by rewrite Hnil, app_nil_r.
Qed.

Lemma never_starts_cons (w : World) (r : ref) (c : call) (k : list instr) :
  never_starts w r → main w = Call c :: k →
  ¬ starts r c ∧ Forall (λ i, ∀ c, i = Call c → ¬ starts r c) k.
Proof.
  intros [Hm _] E. rewrite E in Hm. apply Forall_cons in Hm as [Hc Hk]. eauto.
Qed.

Section Quiet.

Context (env : Env).



End Quiet.


(** ** Progress of [stop] *)

Lemma well_formed_set_main (w : World) (k : list instr) :
  well_formed w → well_formed (set_main k w).
Proof. done. Qed.

Lemma well_formed_flag (w : World) (r : ref) (d : Device) (b : bool) :
  well_formed w → store w !! r = Some d →
  well_formed (set_store (<[r := with_is_running b d]> (store w)) w).
Proof.
  intros [Hth Hh] Hd. split; cbn [store threads set_store].
  - intros t th Hl. destruct (Hth t th Hl) as [d0 Hd0].
    destruct (decide (target th = r)) as [-> | Hne].
    + rewrite list_lookup_insert_eq by (by eapply lookup_lt_Some). eauto.
    + rewrite list_lookup_insert_ne by done. eauto.
  - intros r0 d0 t. destruct (decide (r0 = r)) as [-> | Hne].
    + rewrite list_lookup_insert_eq by (by eapply lookup_lt_Some).
      intros [= <-]. cbn. by apply Hh.
    + rewrite list_lookup_insert_ne by done. apply Hh.
Qed.

Lemma well_formed_start (w w' : World) (r : ref) :
  well_formed w → start r w = Some w' → well_formed w'.
Proof.
  intros [Hth Hh]. unfold start.
  destruct (store w !! r) as [d |] eqn:Hd; [| done]. cbn. intros [= <-].
  assert (Hr : r < length (store w)) by (by eapply lookup_lt_Some).
  split; cbn [store threads add_trace set_threads set_store].
  - intros t th Hl. apply lookup_lt_is_Some. rewrite length_insert.
    apply lookup_app_Some in Hl as [Hl | [_ Hl]].
    + by apply lookup_lt_is_Some, (Hth t th).
    + destruct (t - length (threads w)); cbn in Hl; [| done].
      by injection Hl as <-.
  - intros r0 d0 t0. destruct (decide (r0 = r)) as [-> | Hne].
    + rewrite list_lookup_insert_eq by done. intros [= <-]. cbn. intros [= <-].
      exists {| target := r; pc := AtWhile |}. split; [| done].
      rewrite lookup_app_r by lia. by rewrite Nat.sub_diag.
    + rewrite list_lookup_insert_ne by done. intros Hd0 Ht0.
      destruct (Hh r0 d0 t0 Hd0 Ht0) as (th & Hl & Htgt).
      exists th. split; [| done]. by apply lookup_app_l_Some.
Qed.

(** A world of devices that were never started is well formed. *)
Lemma well_formed_fresh (w : World) :
  threads w = [] → (∀ r d, store w !! r = Some d → thread d = None) →
  well_formed w.
Proof.
  intros Hts Hfresh. split.
  - intros t th. by rewrite Hts.
  - intros r d t Hd Ht. rewrite (Hfresh r d Hd) in Ht. done.
Qed.

Lemma well_formed_main (w w' : World) :
  well_formed w → step_main w = Some w' → well_formed w'.
Proof.
  intros Hwf. unfold step_main.
  destruct (main w) as [| [[r | r | r | |] | r | msg] k].
  - destruct (todo w); [done |]. by intros [= <-].
  - by apply (well_formed_start (set_main k w)).
  - destruct (store w !! r) as [d |] eqn:Hd; [| done]. cbn.
    unfold stop_flag. cbn [store set_main]. rewrite Hd. cbn. intros [= <-].
    by apply (well_formed_flag (set_main _ w)).
  - unfold add_device. cbn [store set_main].
    destruct (store w !! r); [| done]. by intros [= <-].
  - by intros [= <-].
  - by intros [= <-].
  - destruct (joined r w); [| done]. by intros [= <-].
  - by intros [= <-].
Qed.

Section Progress.

Context (env : Env).

Lemma well_formed_thread (t : tid) (w w' : World) :
  well_formed w → step_thread env t w = Some w' → well_formed w'.
Proof.
  intros [Hth Hh] Hstep.
  pose proof (step_thread_inv env t w w' Hstep)
    as (th & d & p' & d' & es & Hl & Hd & _ & _ & _ & _ & Hts & Hs & Hsame & _).
  destruct (same_but_attrs_fields _ _ Hsame) as (_ & _ & _ & _ & _ & Hthr).
  assert (Hdom : ∀ r, is_Some (store w !! r) → is_Some (store w' !! r)).
  { intros r [d0 Hd0]. rewrite Hs.
    destruct (decide (r = target th)) as [-> | Hne].
    - rewrite list_lookup_insert_eq by (by eapply lookup_lt_Some). eauto.
    - rewrite list_lookup_insert_ne by done. eauto. }
  split.
  - intros t' th' Hl'.
    destruct (step_thread_lookup env t t' w w' th' Hstep Hl')
      as (th0 & Hl0 & Htgt & _).
    rewrite Htgt. apply Hdom. by eapply Hth.
  - intros r d0 t0 Hd0 Ht0.
    assert (Hold : ∃ d1, store w !! r = Some d1 ∧ thread d1 = Some t0).
    { rewrite Hs in Hd0. destruct (decide (r = target th)) as [-> | Hne].
      - rewrite list_lookup_insert_eq in Hd0 by (by eapply lookup_lt_Some).
        injection Hd0 as <-. exists d. split; [done | congruence].
      - rewrite list_lookup_insert_ne in Hd0 by done. eauto. }
    destruct Hold as (d1 & Hd1 & Ht1).
    destruct (Hh r d1 t0 Hd1 Ht1) as (th0 & Hl0 & Htgt).
    rewrite Hts. destruct (decide (t0 = t)) as [-> | Hne].
    + rewrite list_lookup_insert_eq by (by eapply lookup_lt_Some).
      exists (set_pc p' th). split; [done |]. cbn. congruence.
    + rewrite list_lookup_insert_ne by done. eauto.
Qed.

(** Every step keeps the world well formed. *)
Lemma well_formed_step (a : actor) (w w' : World) :
  well_formed w → step env a w = Some w' → well_formed w'.
Proof.
  destruct a; cbn [step]; [apply well_formed_main | apply well_formed_thread].
Qed.

Lemma well_formed_run (sched : list actor) (w w' : World) :
  well_formed w → run env sched w = Some w' → well_formed w'.
Proof.
  revert w. induction sched as [| a sched IH]; intros w Hwf; cbn [run].
  - by intros [= <-].
  - destruct (step env a w) as [w1 |] eqn:Hstep; [| done]. cbn.
    apply IH. by eapply well_formed_step.
Qed.

(** A thread whose flag is down leaves its loop within two steps. *)
Lemma loop_winds_down (w : World) (t : tid) (th : Thread) :
  well_formed w → threads w !! t = Some th →
  running w (target th) = Some false →
  ∃ sched w' th',
    length sched ≤ 2 ∧ run env sched w = Some w'
    ∧ threads w' !! t = Some th' ∧ pc th' = Finished ∧ target th' = target th
    ∧ main w' = main w ∧ todo w' = todo w ∧ devices w' = devices w
    ∧ well_formed w'
    ∧ ∀ r, handle w' r = handle w r ∧ running w' r = running w r.
Proof.
  intros Hwf Hth Hrun.
  assert (Hwind : ∀ w th, well_formed w → threads w !! t = Some th →
            running w (target th) = Some false → pc th = AtWhile →
            ∃ w' th', step_thread env t w = Some w'
              ∧ threads w' !! t = Some th' ∧ pc th' = Finished
              ∧ target th' = target th).
  { clear. intros w th Hwf Hth Hrun Hpc. unfold running in Hrun.
    destruct (store w !! target th) as [d |] eqn:Hd; [| done].
    injection Hrun as Hrun. unfold step_thread. rewrite Hth. cbn.
    rewrite Hd. cbn. rewrite Hpc, Hrun. eexists _, _. split; [done |].
    cbn [threads set_threads].
    rewrite list_lookup_insert_eq by (by eapply lookup_lt_Some). done. }
  destruct (pc th) eqn:Hpc.
  - destruct (Hwind w th Hwf Hth Hrun Hpc) as (w' & th' & Hstep & Hth' & Hfin & Htgt).
    exists [Loop t], w', th'. cbn [run step length]. rewrite Hstep.
    pose proof (step_thread_inv env t w w' Hstep)
      as (_ & _ & _ & _ & _ & _ & _ & _ & Hm & Ht & Hdv & _).
    split_and!; try done; try (cbn; lia).
    + by eapply well_formed_thread.
    + intros r. split.
      * by eapply step_thread_handle.
      * by eapply step_thread_running.
  - destruct Hwf as [Hwf1 Hwf2]. destruct (Hwf1 t th Hth) as [d Hd].
    destruct (step_thread env t w) as [w1 |] eqn:Hstep1.
    2:{ unfold step_thread in Hstep1. rewrite Hth in Hstep1. cbn in Hstep1.
        rewrite Hd in Hstep1. cbn in Hstep1. rewrite Hpc in Hstep1.
        by destruct (_run_body _ _). }
    pose proof (step_thread_inv env t w w1 Hstep1)
      as (th0 & d0 & p' & d' & es & Hth0 & _ & _ & Hm & Ht & Hdv & Hts & _ & _ & _ & Hcase).
    rewrite Hth in Hth0. injection Hth0 as <-. rewrite Hpc in Hcase.
    destruct Hcase as [-> _].
    assert (Hwf' : well_formed w1) by (by eapply well_formed_thread).
    assert (Hth1 : threads w1 !! t = Some (set_pc AtWhile th)).
    { rewrite Hts. by rewrite list_lookup_insert_eq by (by eapply lookup_lt_Some). }
    assert (Hrun1 : running w1 (target (set_pc AtWhile th)) = Some false).
    { cbn. by rewrite (step_thread_running env t w w1 _ Hstep1). }
    destruct (Hwind w1 _ Hwf' Hth1 Hrun1 eq_refl)
      as (w' & th' & Hstep & Hth' & Hfin & Htgt).
    exists [Loop t; Loop t], w', th'. cbn [run step length].
    rewrite Hstep1. cbn. rewrite Hstep.
    pose proof (step_thread_inv env t w1 w' Hstep)
      as (_ & _ & _ & _ & _ & _ & _ & _ & Hm' & Ht' & Hdv' & _).
    split_and!; try done; try (cbn; lia); try congruence.
    + by eapply well_formed_thread.
    + intros r. split.
      * rewrite (step_thread_handle env t w1 w' _ Hstep).
        by eapply step_thread_handle.
      * rewrite (step_thread_running env t w1 w' _ Hstep).
        by eapply step_thread_running.
  - exists [], w, th. cbn [run length]. split_and!; try done; lia.
Qed.

Lemma run_app (s1 s2 : list actor) (w : World) :
  run env (s1 ++ s2) w = w1 ← run env s1 w; run env s2 w1.
Proof.
  revert w. induction s1 as [| a s1 IH]; intros w; cbn [run app]; [done |].
  destruct (step env a w); cbn; [apply IH | done].
Qed.

Lemma running_is_Some (w : World) (r : ref) :
  is_Some (running w r) ↔ is_Some (store w !! r).
Proof. unfold running. by rewrite fmap_is_Some. Qed.

(** One [stop] runs to its end in at most five steps: the flag, at most
    two steps of the loop, the join, the log line. *)
Lemma stop_progress (w : World) (r : ref) (k : list instr) :
  main w = Call (Stop r) :: k → is_Some (store w !! r) → well_formed w →
  ∃ sched w',
    length sched ≤ 5 ∧ run env sched w = Some w'
    ∧ main w' = k ∧ todo w' = todo w ∧ devices w' = devices w
    ∧ well_formed w'
    ∧ ∀ r', is_Some (store w !! r') → is_Some (store w' !! r').
Proof.
  intros Hm [d Hd] Hwf.
  set (w1 := set_store (<[r := with_is_running false d]> (store w))
               (set_main (Join r :: LogInfo (stopped_msg d) :: k) w)).
  assert (Hstep1 : step env Main w = Some w1).
  { cbn [step]. unfold step_main, stop_flag. rewrite Hm, Hd. cbn.
    by rewrite Hd. }
  assert (Hwf1 : well_formed w1) by (by apply (well_formed_flag (set_main _ w))).
  assert (Hrun1 : ∀ r', running w1 r'
                        = if decide (r' = r) then Some false else running w r').
  { intros r'. by apply (running_flag (set_main _ w)). }
  assert (Hh1 : handle w1 r = handle w r)
    by (by apply (handle_flag (set_main _ w))).
  assert (Hdom1 : ∀ r', is_Some (store w !! r') → is_Some (store w1 !! r')).
  { intros r'. rewrite <- !running_is_Some, Hrun1.
    destruct (decide (r' = r)); eauto. }
  (* let the loop wind down, if there is one *)
  assert (Hdown : ∃ sched w2,
            length sched ≤ 2 ∧ run env sched w1 = Some w2
            ∧ joined r w2 = true ∧ main w2 = main w1 ∧ todo w2 = todo w1
            ∧ devices w2 = devices w1 ∧ well_formed w2
            ∧ ∀ r', running w2 r' = running w1 r').
  { destruct (thread d) as [t |] eqn:Ht.
    - destruct Hwf as [Hwfa Hwfb].
      destruct (Hwfb r d t Hd Ht) as (th & Hth & Htgt).
      destruct (loop_winds_down w1 t th Hwf1 Hth) as
        (sched & w2 & th' & Hlen & Hrun & Hth' & Hfin & _ & Hm2 & Ht2 & Hd2
         & Hwf2 & Hsame).
      { rewrite Htgt, Hrun1. by rewrite decide_True. }
      exists sched, w2. split_and!; try done;
        [| intros r'; by destruct (Hsame r')].
      assert (Hh2 : handle w2 r = Some t).
      { rewrite (proj1 (Hsame r)), Hh1. unfold handle. by rewrite Hd. }
      unfold joined. unfold handle in Hh2.
      destruct (store w2 !! r) as [d2 |]; cbn in Hh2; [| done].
      rewrite Hh2, Hth'. by apply bool_decide_eq_true.
    - exists [], w1. cbn [run length]. split_and!; try done; [lia |].
      unfold joined. subst w1. cbn [store set_store set_main].
      rewrite list_lookup_insert_eq by (by eapply lookup_lt_Some).
      cbn. by rewrite Ht. }
  destruct Hdown as (sched & w2 & Hlen & Hrun2 & Hj & Hm2 & Ht2 & Hd2 & Hwf2 & Hsame).
  set (w3 := set_main (LogInfo (stopped_msg d) :: k) w2).
  set (w4 := add_trace FromMain [Log INFO (stopped_msg d)] (set_main k w3)).
  assert (Hstep3 : step env Main w2 = Some w3).
  { cbn [step]. unfold step_main. rewrite Hm2. subst w1.
    cbn [main set_store set_main]. by rewrite Hj. }
  assert (Hstep4 : step env Main w3 = Some w4) by done.
  exists (Main :: sched ++ [Main; Main]), w4.
  split; [cbn; rewrite length_app; cbn; lia |]. split.
  { change (run env (Main :: sched ++ [Main; Main]) w)
      with (w' ← step env Main w; run env (sched ++ [Main; Main]) w').
    rewrite Hstep1. cbn [mbind option_bind]. rewrite run_app, Hrun2.
    cbn [mbind option_bind run]. rewrite Hstep3. cbn [mbind option_bind].
    by rewrite Hstep4. }
  subst w4 w3. cbn [main todo devices add_trace set_main].
  split_and!; try done; try (by rewrite Ht2); try (by rewrite Hd2).
  - intros r' Hr'. apply running_is_Some. change (is_Some (running w2 r')).
    rewrite Hsame. by apply running_is_Some, Hdom1.
Qed.

(** So does a row of them, one after the other. *)
Lemma stops_progress (rs : list ref) (w : World) (k : list instr) :
  main w = map (λ r, Call (Stop r)) rs ++ k →
  (∀ r, r ∈ rs → is_Some (store w !! r)) → well_formed w →
  ∃ sched w',
    length sched ≤ 5 * length rs ∧ run env sched w = Some w'
    ∧ main w' = k ∧ todo w' = todo w ∧ devices w' = devices w
    ∧ well_formed w'.
Proof.
  revert w. induction rs as [| r rs IH]; intros w Hm Hrs Hwf.
  - exists [], w. cbn [run length]. split_and!; try done; lia.
  - cbn [map app] in Hm.
    destruct (stop_progress w r _ Hm) as
      (s1 & w1 & Hlen1 & Hrun1 & Hm1 & Ht1 & Hd1 & Hwf1 & Hdom1);
      [apply Hrs, list_elem_of_here | done |].
    destruct (IH w1 Hm1) as (s2 & w2 & Hlen2 & Hrun2 & Hm2 & Ht2 & Hd2 & Hwf2);
      [| done |].
    { intros r' Hr'. apply Hdom1, Hrs. by apply list_elem_of_further. }
    exists (s1 ++ s2), w2. rewrite run_app, Hrun1. cbn.
    split_and!; try done; try congruence.
    rewrite length_app. cbn [length]. lia.
Qed.

End Progress.

(** ** Timestamps *)



(** ** Lifecycle and loop *)

Lemma step_main_threads (w w' : World) :
  step_main w = Some w' →
  threads w' = threads w
  ∨ ∃ r, threads w' = threads w ++ [{| target := r; pc := AtWhile |}].
Proof.
  unfold step_main, start, stop_flag, add_device. intros Hstep.
  repeat case_match; simplify_option_eq; cbn; eauto.
  destruct (store w !! _); simplify_option_eq; cbn; eauto.
Qed.

Section Lifecycle.

Context (env : Env).

(** A thread in the [try] always completes its pass and is back at the
    [while] test. *)
Lemma step_thread_in_try (w : World) (t : tid) (th : Thread) (d : Device) :
  threads w !! t = Some th → pc th = InTry → store w !! target th = Some d →
  ∃ c, _run_body env {| self := d; asked := env_calls w; out := [] |} = (Ok tt, c)
    ∧ step_thread env t w =
        Some (set_threads (<[t := set_pc AtWhile th]> (threads w))
             (add_trace (FromLoop t (target th)) (out c)
             (set_env_calls (asked c)
             (set_store (<[target th := self c]> (store w)) w)))).
Proof.
  intros Hth Hpc Hd.
  destruct (run_body_returns env {| self := d; asked := env_calls w; out := [] |})
    as [c Hc].
  exists c. split; [done |]. unfold step_thread. rewrite Hth. cbn.
  rewrite Hd. cbn. by rewrite Hpc, Hc.
Qed.

(** What a step can do to a device object: nothing to its id, type, client
    and interval, and nothing to its subclass attributes unless the step
    is a pass of a loop of that very device. *)
Lemma step_store (a : actor) (w w' : World) (r : ref) (d : Device) :
  step env a w = Some w' → store w !! r = Some d →
  ∃ d', store w' !! r = Some d'
    ∧ device_id d' = device_id d ∧ device_type d' = device_type d
    ∧ mqtt_client d' = mqtt_client d
    ∧ publish_interval d' = publish_interval d
    ∧ ((∀ t th, a = Loop t → threads w !! t = Some th → target th = r →
                pc th ≠ InTry) →
       attrs d' = attrs d).
Proof.
  intros Hstep Hd.
  destruct a as [| t]; cbn [step] in Hstep.
  - unfold step_main, start, stop_flag, add_device in Hstep.
    destruct (main w) as [| [[r' | r' | r' | |] | r' | msg] k];
      cbn [store set_main] in Hstep.
    + destruct (todo w); [done |]. injection Hstep as <-. by exists d.
    + destruct (store w !! r') as [d0 |] eqn:Hd0; [| done].
      injection Hstep as <-.
      cbn [store add_trace set_threads set_store set_main].
      destruct (decide (r = r')) as [-> | Hne].
      * rewrite list_lookup_insert_eq by (by eapply lookup_lt_Some).
        eexists. split; [done |]. cbn. rewrite Hd in Hd0.
        injection Hd0 as <-. done.
      * rewrite list_lookup_insert_ne by done. by exists d.
    + destruct (store w !! r') as [d0 |] eqn:Hd0; [| done].
      cbn [mbind option_bind] in Hstep. injection Hstep as <-.
      cbn [store set_store set_main].
      destruct (decide (r = r')) as [-> | Hne].
      * rewrite list_lookup_insert_eq by (by eapply lookup_lt_Some).
        eexists. split; [done |]. cbn. rewrite Hd in Hd0.
        injection Hd0 as <-. done.
      * rewrite list_lookup_insert_ne by done. by exists d.
    + destruct (store w !! r'); [| done]. injection Hstep as <-. by exists d.
    + injection Hstep as <-. by exists d.
    + injection Hstep as <-. by exists d.
    + destruct (joined r' w); [| done]. injection Hstep as <-. by exists d.
    + injection Hstep as <-. by exists d.
  - pose proof (step_thread_inv env t w w' Hstep)
      as (th & d0 & p' & d' & es & Hth & Hd0 & _ & _ & _ & _ & _ & Hs & Hsame
          & _ & Hcase).
    rewrite Hs. destruct (decide (r = target th)) as [-> | Hne].
    + rewrite list_lookup_insert_eq by (by eapply lookup_lt_Some).
      exists d'. split; [done |].
      rewrite Hd in Hd0. injection Hd0 as <-.
      destruct (same_but_attrs_fields _ _ Hsame) as (-> & -> & -> & -> & _).
      split_and!; try done. intros Hown.
      destruct (pc th) eqn:Hpc.
      * by destruct Hcase as (_ & -> & _).
      * by destruct (Hown t th eq_refl Hth eq_refl).
      * done.
    + rewrite list_lookup_insert_ne by done. by exists d.
Qed.

Lemma run_cons (a : actor) (sched : list actor) (w w1 : World) :
  step env a w = Some w1 → run env (a :: sched) w = run env sched w1.
Proof. intros H. cbn [run]. by rewrite H. Qed.

(** C1 (as the code has it). [start] has no guard on [is_running]: on any
    device, running or not, it sets the flag, starts one more thread at the
    head of the loop and points the handle at it; the threads already
    looping stay. The loops on the device grow by one. *)
Theorem start_always_spawns (w : World) (r : ref) (d : Device) :
  store w !! r = Some d →
  ∃ w',
    start r w = Some w'
    ∧ threads w' = threads w ++ [{| target := r; pc := AtWhile |}]
    ∧ loops w' r = S (loops w r)
    ∧ (∀ r', r' ≠ r → loops w' r' = loops w r')
    ∧ store w' !! r = Some (with_thread (Some (length (threads w)))
                              (with_is_running true d))
    ∧ running w' r = Some true
    ∧ handle w' r = Some (length (threads w)).
Proof.
  intros Hd. unfold start. rewrite Hd. cbn. eexists. split; [reflexivity |].
  assert (Hl : <[r := with_thread (Some (length (threads w)))
                        (with_is_running true d)]> (store w) !! r
               = Some (with_thread (Some (length (threads w)))
                         (with_is_running true d))).
  { by rewrite list_lookup_insert_eq by (by eapply lookup_lt_Some). }
  split; [done |]. split; [| split; [| split; [| split]]].
  - erewrite loops_snoc by reflexivity. fold (loops w r).
    rewrite decide_True by (by split). lia.
  - intros r' Hne. erewrite loops_snoc by reflexivity. fold (loops w r').
    rewrite decide_False; [lia |]. intros [? _]. cbn in *. congruence.
  - exact Hl.
  - unfold running. cbn [store add_trace set_threads set_store]. by rewrite Hl.
  - unfold handle. cbn [store add_trace set_threads set_store]. by rewrite Hl.
Qed.

(** C2 (as the code has it). [add_device] appends the device to
    [self.devices] and logs it; it looks at no id and never fails, whatever
    is registered already. *)
Theorem add_device_appends (w : World) (r : ref) (d : Device) :
  store w !! r = Some d →
  ∃ w',
    add_device r w = Some w'
    ∧ devices w' = devices w ++ [r]
    ∧ store w' = store w ∧ threads w' = threads w
    ∧ trace w' = trace w ++ [(FromMain, Log INFO ("添加虚拟设备: " +:+ device_id d))].
Proof.
  intros Hd. unfold add_device. rewrite Hd. cbn. eexists.
  split; [reflexivity |]. by repeat split.
Qed.

(** C10. [stop] on a device that was never started runs to its end: the
    flag is (again) false, the join is skipped, the line is logged; the
    device, the threads and the registry are as before. *)
Theorem stop_before_start (w : World) (r : ref) (d : Device) (rest : list call) :
  store w !! r = Some d → thread d = None →
  main w = [] → todo w = Stop r :: rest →
  ∃ w',
    run env [Main; Main; Main; Main] w = Some w'
    ∧ main w' = [] ∧ todo w' = rest
    ∧ running w' r = Some false
    ∧ store w' = <[r := with_is_running false d]> (store w)
    ∧ (is_running d = false → store w' = store w)
    ∧ threads w' = threads w ∧ devices w' = devices w
    ∧ env_calls w' = env_calls w
    ∧ trace w' = trace w ++ [(FromMain, Log INFO (stopped_msg d))].
Proof.
  intros Hd Hthr Hm Ht.
  assert (Hl : <[r := with_is_running false d]> (store w) !! r
               = Some (with_is_running false d)).
  { by rewrite list_lookup_insert_eq by (by eapply lookup_lt_Some). }
  set (m := stopped_msg d).
  set (w1 := set_main [Call (Stop r)] (set_todo rest w)).
  set (w2 := set_store (<[r := with_is_running false d]> (store w))
               (set_main [Join r; LogInfo m] w1)).
  set (w3 := set_main [LogInfo m] w2).
  set (w4 := add_trace FromMain [Log INFO m] (set_main [] w3)).
  assert (H1 : step env Main w = Some w1).
  { cbn [step]. unfold step_main. by rewrite Hm, Ht. }
  assert (H2 : step env Main w1 = Some w2).
  { cbn [step]. unfold step_main, stop_flag. subst w1.
    cbn [main store set_main set_todo]. by rewrite Hd. }
  assert (H3 : step env Main w2 = Some w3).
  { cbn [step]. unfold step_main, joined. subst w2.
    cbn [main store set_main set_store]. rewrite Hl. cbn. by rewrite Hthr. }
  assert (H4 : step env Main w3 = Some w4) by done.
  exists w4. split.
  { rewrite (run_cons _ _ _ _ H1), (run_cons _ _ _ _ H2),
      (run_cons _ _ _ _ H3), (run_cons _ _ _ _ H4). done. }
  subst w4 w3 w2 w1.
  cbn [main todo store threads devices env_calls trace add_trace set_main
       set_store set_todo map].
  split_and!; try done.
  - unfold running. cbn [store add_trace set_main set_store set_todo]. by rewrite Hl.
  - intros Hrun. apply list_insert_id. rewrite Hd. f_equal.
    destruct d; cbn in *; by subst.
Qed.


End Lifecycle.

Section Publishing.

Context (env : Env).


End Publishing.

(** ** From [start] to [stop] *)

(** [start] on a device with no loop leaves the new thread as its only
    loop. *)
Lemma start_sole_loop (w w' : World) (r : ref) :
  loops w r = 0 → start r w = Some w' → sole_loop w' r.
Proof.
  intros Hz. unfold start.
  destruct (store w !! r) as [d |] eqn:Hd; [| done]. cbn. intros [= <-].
  intros t th Hth Hon. cbn [threads add_trace set_threads set_store] in Hth.
  unfold handle. cbn [store add_trace set_threads set_store].
  rewrite list_lookup_insert_eq by (by eapply lookup_lt_Some). cbn.
  destruct (decide (t < length (threads w))) as [Hlt | Hge].
  - rewrite lookup_app_l in Hth by done.
    by destruct (proj1 (loops_zero w r) Hz t th Hth).
  - f_equal. apply lookup_lt_Some in Hth. rewrite length_app in Hth.
    cbn in Hth. lia.
Qed.

Lemma start_other_sole_loop (w w' : World) (r r' : ref) :
  r' ≠ r → start r' w = Some w' → sole_loop w r → sole_loop w' r.
Proof.
  intros Hne. unfold start.
  destruct (store w !! r') as [d |] eqn:Hd; [| done]. cbn. intros [= <-] Hsole.
  intros t th Hth Hon. cbn [threads add_trace set_threads set_store] in Hth.
  unfold handle. cbn [store add_trace set_threads set_store].
  rewrite list_lookup_insert_ne by done.
  destruct (decide (t < length (threads w))) as [Hlt | Hge].
  - rewrite lookup_app_l in Hth by done. by apply (Hsole t th).
  - rewrite lookup_app_r in Hth by lia.
    destruct (t - length (threads w)); cbn in Hth; [| done].
    injection Hth as <-. by destruct Hon.
Qed.

Section StopContract.

Context (env : Env).



End StopContract.

(** ** The switch across ticks *)

Section SwitchState.

Context (env : Env) (Henv : EnvOk env).

(** C6. The switch toggles exactly when the draw of [random.random()],
    taken from [0, 1), is below 0.1, and keeps its state otherwise; the new
    state is written to the object and reported in the reading; the power
    is 0 when the switch is off and a draw from [5, 100] rounded to two
    places, hence within [5, 100], when on. The pass of the loop that made
    the reading leaves the object so in the store, and no step but such a
    pass of the device's own loop changes the attributes of a device. *)
Theorem smart_switch_reading (c : Ctx) (is_on : bool) (power_consumption : Q) :
  attrs (self c) = SmartSwitch_attrs is_on power_consumption →
  let r := env_random env (asked c) in
  let is_on' := if Qlt_bool r (1 # 10) then negb is_on else is_on in
  let power' := (if is_on' then Num.round (env_uniform env (S (asked c)) 5 100) 2
                 else 0)%Q in
  let now := env_now env (if is_on' then S (S (asked c)) else S (asked c)) in
  (∃ c' : Ctx,
     generate_data env c =
       (Ok (JObj [
          ("device_id", JStr (device_id (self c)));
          ("device_type", JStr (device_type (self c)));
          ("timestamp", JStr (isoformat now));
          ("data", JObj [
             ("switch_state", JStr (if is_on' then "ON" else "OFF"));
             ("power_consumption", JNum power');
             ("unit", JStr "W")])]), c')
     ∧ self c' = with_attrs (SmartSwitch_attrs is_on' power') (self c)
     ∧ out c' = out c)
  ∧ (0 <= r < 1)%Q
  ∧ ((r < 1 # 10)%Q → is_on' = negb is_on)
  ∧ ((1 # 10 <= r)%Q → is_on' = is_on)
  ∧ (is_on' = false → power' = 0%Q)
  ∧ (is_on' = true →
       (5 <= env_uniform env (S (asked c)) 5 100 <= 100)%Q
       ∧ (5 <= power' <= 100)%Q ∧ Num.decimal_places 2 power')
  ∧ (∀ (w w' : World) (t : tid) (th : Thread),
       threads w !! t = Some th → pc th = InTry →
       store w !! target th = Some (self c) → env_calls w = asked c →
       step env (Loop t) w = Some w' →
       store w' !! target th
       = Some (with_attrs (SmartSwitch_attrs is_on' power') (self c)))
  ∧ (∀ (a : actor) (w w' : World) (r0 : ref) (d : Device),
       step env a w = Some w' → store w !! r0 = Some d →
       (∀ t th, a = Loop t → threads w !! t = Some th → target th = r0 →
                pc th ≠ InTry) →
       ∃ d', store w' !! r0 = Some d' ∧ attrs d' = attrs d).
Proof.
  intros Hattrs r is_on' power' now.
  assert (Hu : (5 <= env_uniform env (S (asked c)) 5 100 <= 100)%Q)
    by (apply (uniform_range env Henv); lra).
  split.
  { destruct c as [d n o]. cbn [self asked out] in *.
    eexists. split; [by apply (smart_switch_run env d n o is_on power_consumption) |].
    done. }
  split; [apply (random_range env Henv) |].
  split; [intros Hr%Qlt_bool_true; subst is_on'; by rewrite Hr |].
  split; [intros Hr%Qlt_bool_false; subst is_on'; by rewrite Hr |].
  split; [intros E; subst power'; by rewrite E |].
  split.
  { intros E. subst power'. rewrite E.
    split; [exact Hu |]. split.
    - apply (NumFacts.round_bounds 5 100). exact Hu.
    - apply NumFacts.round_decimal_places. }
  split.
  - intros w w' t th Hth Hpc Hd Hcalls Hstep.
    destruct (step_thread_in_try env w t th (self c) Hth Hpc Hd)
      as (c1 & Hbody & Hstep1).
    cbn [step] in Hstep. rewrite Hstep1 in Hstep. injection Hstep as <-.
    cbn [store set_threads add_trace set_env_calls set_store].
    rewrite list_lookup_insert_eq by (by eapply lookup_lt_Some). f_equal.
    pose proof (smart_switch_run env (self c) (asked c) [] is_on
                  power_consumption Hattrs) as Hgen.
    cbv zeta in Hgen. rewrite Hcalls in Hbody.
    rewrite (run_body_cases env _ _ _ Hgen) in Hbody. cbv zeta in Hbody.
    cbn [self] in Hbody.
    destruct (env_publish _ _ _ _ _); by injection Hbody as <-.
  - intros a w w' r0 d Hstep Hd Hown.
    destruct (step_store env a w w' r0 d Hstep Hd) as (d' & Hd' & _ & _ & _ & _ & Ha).
    exists d'. split; [done | by apply Ha].
Qed.

End SwitchState.

(** ** The theorems at work on concrete devices *)




(** C1 on a concrete device: a second [start] on the running sensor. *)
Lemma start_always_spawns_witness :
  ∃ w', start 0 Demo.started_once = Some w'
        ∧ loops w' 0 = S (loops Demo.started_once 0)
        ∧ running w' 0 = Some true.
Proof.
  destruct (start_always_spawns Demo.started_once 0 _ eq_refl)
    as (w' & H1 & _ & H2 & _ & _ & H3 & _).
  exists w'. split; [exact H1 | split; [exact H2 | exact H3]].
Defined.

(** C1 as stated fails: the sensor is running, with one loop; the second
    [start] neither fails nor leaves the world as it was, and there are two
    loops on the sensor, both of which go on to publish. *)
Lemma double_start_counterexample :
  running Demo.started_once 0 = Some true
  ∧ loops Demo.started_once 0 = 1
  ∧ ¬ (start 0 Demo.started_once = None
       ∨ start 0 Demo.started_once = Some Demo.started_once)
  ∧ ∃ w' w'',
      start 0 Demo.started_once = Some w'
      ∧ loops w' 0 = 2
      ∧ run (Demo.env Demo.never) [Loop 0; Loop 0; Loop 1; Loop 1] w' = Some w''
      ∧ loops w'' 0 = 2
      ∧ map fst (publishes w'' 0) = [FromLoop 0 0; FromLoop 1 0].
Proof.
  split; [reflexivity |]. split; [reflexivity |]. split.
  - intros [E | E]; [discriminate E |].
    apply (f_equal (option_map (λ w, length (threads w)))) in E.
    discriminate E.
  - eexists _, _. split; [reflexivity |]. split; [reflexivity |].
    split; [vm_compute; reflexivity |]. split; reflexivity.
Qed.

(** C2 on a concrete device: registering a first device. *)
Lemma add_device_appends_witness :
  ∃ w', add_device 0 (Demo.world [Demo.temp_sensor_001] []) = Some w'
        ∧ devices w' = [0].
Proof.
  destruct (add_device_appends (Demo.world [Demo.temp_sensor_001] []) 0 _ eq_refl)
    as (w' & H1 & H2 & _).
  exists w'. split; [exact H1 | exact H2].
Defined.

(** C2 as stated fails: the second object carries the id of the
    registered one, yet [add_device] does not fail, and the registry
    grows. *)
Lemma duplicate_id_counterexample :
  id_present Demo.twins 1
  ∧ add_device 1 Demo.twins ≠ None
  ∧ ∃ w', add_device 1 Demo.twins = Some w'
          ∧ devices Demo.twins = [0]
          ∧ devices w' = [0; 1]
          ∧ devices w' ≠ devices Demo.twins.
Proof.
  split; [| split].
  - exists 0, (TemperatureHumiditySensor "temp_sensor_001" 0 7),
      Demo.temp_sensor_001.
    split; [apply list_elem_of_here |]. by repeat split.
  - discriminate.
  - eexists. split; [reflexivity |]. split; [reflexivity |].
    split; [reflexivity | discriminate].
Qed.



(** C5 on a concrete device: the first reading of the motion sensor. *)
Lemma motion_reading_witness :
  ∃ j c',
    generate_data (Demo.env Demo.never)
      {| self := Demo.motion_sensor_001; asked := 0; out := [] |} = (Ok j, c')
    ∧ self c' = Demo.motion_sensor_001.
Proof.
  destruct (motion_reading (Demo.env Demo.never) (demo_env_ok Demo.never)
              {| self := Demo.motion_sensor_001; asked := 0; out := [] |}
              eq_refl)
    as (c' & H1 & _ & _ & H2 & _).
  eexists _, c'. split; [exact H1 | exact H2].
Defined.

(** C6 on a concrete device: the first reading of the switch; the draw is
    0, so it turns on. *)
Lemma smart_switch_reading_witness :
  ∃ j c',
    generate_data (Demo.env Demo.never)
      {| self := Demo.smart_switch_001; asked := 0; out := [] |} = (Ok j, c')
    ∧ attrs (self c') = SmartSwitch_attrs true (Num.round (115 # 4) 2).
Proof.
  destruct (smart_switch_reading (Demo.env Demo.never) (demo_env_ok Demo.never)
              {| self := Demo.smart_switch_001; asked := 0; out := [] |}
              false 0 eq_refl)
    as [(c' & H1 & H2 & _) _].
  eexists _, c'. split; [exact H1 |]. rewrite H2. reflexivity.
Defined.




(** C10 on a concrete device: [stop] on a sensor that was never started. *)
Lemma stop_before_start_witness :
  ∃ w',
    run (Demo.env Demo.never) [Main; Main; Main; Main]
      (Demo.world [Demo.temp_sensor_001] [Stop 0]) = Some w'
    ∧ store w' = [Demo.temp_sensor_001] ∧ threads w' = [].
Proof.
  destruct (stop_before_start (Demo.env Demo.never)
              (Demo.world [Demo.temp_sensor_001] [Stop 0]) 0 _ []
              eq_refl eq_refl eq_refl eq_refl)
    as (w' & H1 & _ & _ & _ & _ & H2 & H3 & _).
  exists w'. split; [exact H1 |]. split; [exact (H2 eq_refl) | exact H3].
Defined.

(** * Properties of the rest of the module *)

(** ** Splitting topics *)

Lemma split_nonempty sep s : split sep s ≠ [].
Proof. destruct s as [| c s]; cbn; [done |]. repeat case_match; done. Qed.

Lemma split_free sep s : occurs sep s = 0 → split sep s = [s].
Proof.
  induction s as [| c s IH]; cbn; [done |].
  case_bool_decide; [done |]. intros Hz. by rewrite IH.
Qed.

Lemma append_nil s : EmptyString +:+ s = s.
Proof. reflexivity. Qed.

Lemma append_cons c a b : String c a +:+ b = String c (a +:+ b).
Proof. reflexivity. Qed.

Lemma split_app sep a b :
  occurs sep a = 0 → split sep (a +:+ String sep b) = a :: split sep b.
Proof.
  induction a as [| c a IH]; cbn [occurs].
  - intros _. rewrite append_nil. cbn [split]. by rewrite bool_decide_true.
  - rewrite append_cons. cbn [split].
    case_bool_decide; [done |]. intros Hz. by rewrite IH.
Qed.

Lemma length_split sep s : length (split sep s) = S (occurs sep s).
Proof.
  induction s as [| c s IH]; cbn; [done |].
  case_bool_decide; cbn; [by rewrite IH |].
  destruct (split sep s) eqn:E; [by apply split_nonempty in E |].
  cbn in *. lia.
Qed.

(** ** Control messages *)

Section ControlFacts.

Context {command : Type}.
Context (loads : string → result command) (show : command → string).

(** X1. A topic [<prefix>/<type>/<id>], followed or not by further levels,
    is read as type and id when the three leading levels hold no slash
    and the payload decodes: this is how the control topics of the
    subscription, and the devices' own data topics, are taken apart.
    Whatever follows the third level, and the first level itself, is not
    looked at. *)
Theorem on_message_parses (prefix ty id payload : string) (c : command) :
  occurs "/" prefix = 0 → occurs "/" ty = 0 → occurs "/" id = 0 →
  loads payload = Ok c →
  let line := [Log INFO ("收到设备控制命令: " +:+ ty +:+ "/" +:+ id
                         +:+ " -> " +:+ show c)] in
  on_message loads show (prefix +:+ "/" +:+ ty +:+ "/" +:+ id) payload = line
  ∧ ∀ rest,
      on_message loads show
        (prefix +:+ "/" +:+ ty +:+ "/" +:+ id +:+ "/" +:+ rest) payload = line.
Proof.
  intros Hp Ht Hi Hl line. unfold on_message, on_message_try. split.
  - change (prefix +:+ "/" +:+ ty +:+ "/" +:+ id)
      with (prefix +:+ String "/" (ty +:+ String "/" id)).
    rewrite !split_app, split_free by done. cbn. by rewrite Hl.
  - intros rest.
    change (prefix +:+ "/" +:+ ty +:+ "/" +:+ id +:+ "/" +:+ rest)
      with (prefix +:+ String "/" (ty +:+ String "/" (id +:+ String "/" rest))).
    rewrite !split_app by done. cbn. by rewrite Hl.
Qed.

(** X2. [on_message] contains its failures: it logs one line, whatever the
    topic and the payload. A topic with fewer than two slashes gives the
    index error, the payload not being looked at; any other topic gives
    either the command line or the error of the decoding. *)
Theorem on_message_contained (topic payload : string) :
  length (on_message loads show topic payload) = 1
  ∧ (occurs "/" topic < 2 →
     on_message loads show topic payload
     = [Log ERROR "处理控制命令错误: list index out of range"])
  ∧ (2 ≤ occurs "/" topic →
     ∃ ty id,
       split "/" topic !! 1 = Some ty ∧ split "/" topic !! 2 = Some id
       ∧ on_message loads show topic payload
         = match loads payload with
           | Ok c => [Log INFO ("收到设备控制命令: " +:+ ty +:+ "/" +:+ id
                                +:+ " -> " +:+ show c)]
           | Raise e => [Log ERROR ("处理控制命令错误: " +:+ exn_str e)]
           end).
Proof.
  pose proof (length_split "/" topic) as Hlen.
  unfold on_message, on_message_try, index. split; [| split].
  - destruct (split "/" topic !! 1); cbn; [| done].
    destruct (split "/" topic !! 2); cbn; [| done].
    by destruct (loads payload).
  - intros Hlt.
    destruct (split "/" topic !! 1) as [ty |] eqn:E1; cbn; [| done].
    destruct (split "/" topic !! 2) as [id |] eqn:E2; cbn; [| done].
    apply lookup_lt_Some in E2. lia.
  - intros Hge.
    destruct (lookup_lt_is_Some_2 (split "/" topic) 1 ltac:(lia)) as [ty E1].
    destruct (lookup_lt_is_Some_2 (split "/" topic) 2 ltac:(lia)) as [id E2].
    exists ty, id. rewrite E1, E2. cbn. split; [done |]. split; [done |].
    by destruct (loads payload).
Qed.

End ControlFacts.

(** ** The control thread, case by case *)

Lemma step_main_spec (w w' : World) :
  step_main w = Some w' ↔ main_step w w'.
Proof.
  split.
  - unfold step_main, start, stop_flag, add_device.
    destruct (main w) as [| [[r | r | r | |] | r | msg] k] eqn:Hm;
      cbn [store threads set_main].
    + destruct (todo w) as [| c cs] eqn:Ht; [done |]. intros [= <-].
      by apply ms_enter.
    + destruct (store w !! r) as [d |] eqn:Hd; [| done]. intros [= <-].
      by apply ms_start.
    + destruct (store w !! r) as [d |] eqn:Hd; [| done]. intros [= <-].
      by apply ms_stop.
    + destruct (store w !! r) as [d |] eqn:Hd; [| done]. intros [= <-].
      by apply ms_add.
    + intros [= <-]. by apply ms_start_all.
    + intros [= <-]. by apply ms_stop_all.
    + destruct (joined r w) eqn:Hj; [| done]. intros [= <-]. by apply (ms_join w r).
    + intros [= <-]. by apply (ms_log w msg).
  - unfold step_main, start, stop_flag, add_device.
    intros [c cs Hm Ht | r k d Hm Hd | r k d Hm Hd | r k d Hm Hd | k Hm | k Hm
            | r k Hm Hj | msg k Hm]; rewrite Hm;
      cbn [store threads set_main]; rewrite ?Ht, ?Hd, ?Hj; reflexivity.
Qed.

(** ** Starting every device *)

Section StartAll.

Context (env : Env).

Lemma ms_start_effect (w : World) (r : ref) (k : list instr) (d : Device) :
  main w = Call (Start r) :: k → store w !! r = Some d →
  ∃ w',
    step env Main w = Some w' ∧ main w' = k ∧ todo w' = todo w
    ∧ devices w' = devices w
    ∧ threads w' = threads w ++ [{| target := r; pc := AtWhile |}]
    ∧ (∀ r', loops w' r' = loops w r' + (if decide (r' = r) then 1 else 0))
    ∧ running w' r = Some true
    ∧ (∀ r', r' ≠ r → running w' r' = running w r')
    ∧ (∀ r', is_Some (store w !! r') → is_Some (store w' !! r')).
Proof.
  intros Hm Hd. eexists. split.
  { cbn [step]. apply step_main_spec. by apply ms_start. }
  cbn [main todo devices threads store add_trace set_threads set_store set_main].
  split_and!; try done.
  - intros r'. erewrite loops_snoc by reflexivity.
    cbn [threads add_trace set_threads set_store set_main]. fold (loops w r').
    unfold loops_on. cbn [target pc].
    destruct (decide (r' = r)) as [-> | Hne].
    + by rewrite decide_True.
    + rewrite decide_False; [done |]. intros [? _]. congruence.
  - unfold running. cbn [store add_trace set_threads set_store set_main].
    by rewrite list_lookup_insert_eq by (by eapply lookup_lt_Some).
  - intros r' Hne. unfold running.
    cbn [store add_trace set_threads set_store set_main].
    by rewrite list_lookup_insert_ne.
  - intros r' Hr'. apply lookup_lt_is_Some. rewrite length_insert.
    by apply lookup_lt_is_Some.
Qed.

(** A row of [start] calls goes through without any other thread moving. *)
Lemma starts_run (rs : list ref) (w : World) (k : list instr) :
  main w = map (λ r, Call (Start r)) rs ++ k →
  (∀ r, r ∈ rs → is_Some (store w !! r)) →
  ∃ w',
    run env (replicate (length rs) Main) w = Some w'
    ∧ main w' = k ∧ todo w' = todo w ∧ devices w' = devices w
    ∧ length (threads w') = length (threads w) + length rs
    ∧ (∀ r, loops w' r = loops w r + length (filter (λ x, x = r) rs))
    ∧ (∀ r, r ∈ rs → running w' r = Some true)
    ∧ (∀ r, r ∉ rs → running w' r = running w r).
Proof.
  revert w. induction rs as [| r0 rs IH]; intros w Hm Hrs.
  - exists w. cbn. split_and!; try done; try (intros; lia).
    intros r Hr. by apply not_elem_of_nil in Hr.
  - cbn [map app] in Hm.
    destruct (Hrs r0) as [d Hd]; [apply list_elem_of_here |].
    destruct (ms_start_effect w r0 _ d Hm Hd)
      as (w1 & Hstep & Hm1 & Ht1 & Hd1 & Hth1 & Hl1 & Hr1 & Hr1' & Hdom).
    destruct (IH w1 Hm1) as (w' & Hrun & Hm' & Ht' & Hd' & Hth' & Hl' & Hr' & Hn').
    { intros r Hr. apply Hdom, Hrs. by apply list_elem_of_further. }
    exists w'. cbn [replicate length]. rewrite (run_cons env _ _ _ _ Hstep).
    split_and!; try done; try congruence.
    + rewrite Hth', Hth1, length_app. cbn. lia.
    + intros r. rewrite Hl', Hl1, filter_cons.
      destruct (decide (r = r0)) as [-> | Hne].
      * rewrite decide_True by done. cbn. lia.
      * rewrite decide_False by done. lia.
    + intros r Hr. destruct (decide (r ∈ rs)) as [Hin | Hnin]; [by apply Hr' |].
      rewrite Hn' by done. apply elem_of_cons in Hr as [-> | ?]; done.
    + intros r Hr. apply not_elem_of_cons in Hr as [Hne Hnin].
      rewrite Hn' by done. by apply Hr1'.
Qed.

(** [start_all_devices] from its call to its return. *)
Lemma start_all_run (w : World) (rest : list call) :
  main w = [] → todo w = StartAll :: rest →
  (∀ r, r ∈ devices w → is_Some (store w !! r)) →
  ∃ w',
    run env (replicate (length (devices w) + 3) Main) w = Some w'
    ∧ main w' = [] ∧ todo w' = rest ∧ devices w' = devices w
    ∧ length (threads w') = length (threads w) + length (devices w)
    ∧ (∀ r, loops w' r = loops w r + length (filter (λ x, x = r) (devices w)))
    ∧ (∀ r, r ∈ devices w → running w' r = Some true)
    ∧ (∀ r, r ∉ devices w → running w' r = running w r)
    ∧ last (trace w')
      = Some (FromMain, Log INFO ("所有 " +:+ pretty (length (devices w))
                                   +:+ " 个虚拟设备已启动")).
Proof.
  intros Hm Ht Hdom.
  set (msg := "所有 " +:+ pretty (length (devices w)) +:+ " 个虚拟设备已启动").
  set (w1 := set_main [Call StartAll] (set_todo rest w)).
  set (w2 := set_main (map (λ r, Call (Start r)) (devices w) ++ [LogInfo msg]) w1).
  assert (H1 : step env Main w = Some w1).
  { cbn [step]. apply step_main_spec. by apply ms_enter. }
  assert (H2 : step env Main w1 = Some w2).
  { cbn [step]. apply step_main_spec. by apply (ms_start_all w1 []). }
  destruct (starts_run (devices w) w2 [LogInfo msg] eq_refl Hdom)
    as (w3 & Hrun & Hm3 & Ht3 & Hd3 & Hth3 & Hl3 & Hr3 & Hn3).
  set (w4 := add_trace FromMain [Log INFO msg] (set_main [] w3)).
  assert (H4 : step env Main w3 = Some w4).
  { cbn [step]. apply step_main_spec. by apply ms_log. }
  exists w4. split.
  { replace (length (devices w) + 3) with (S (S (length (devices w) + 1))) by lia.
    cbn [replicate]. rewrite (run_cons env _ _ _ _ H1), (run_cons env _ _ _ _ H2).
    rewrite replicate_add, run_app, Hrun. cbn [mbind option_bind replicate].
    by rewrite (run_cons env _ _ _ _ H4). }
  subst w4. cbn [main todo devices threads trace add_trace set_main].
  split_and!; try done.
  - cbn [map]. by rewrite last_snoc.
Qed.

(** X3. [start_all_devices] needs no step of any other thread to go
    through: [len(devices)] calls of [start], then the log line. It gives
    every device one more loop for each time it is registered (so one to
    each when no device is registered twice, two to a device that is),
    sets the flag of every registered device, and leaves the other
    devices' flags alone. *)
Theorem start_all_one_loop_per_entry (w : World) (rest : list call) :
  main w = [] → todo w = StartAll :: rest →
  (∀ r, r ∈ devices w → is_Some (store w !! r)) →
  ∃ w',
    run env (replicate (length (devices w) + 3) Main) w = Some w'
    ∧ main w' = [] ∧ todo w' = rest ∧ devices w' = devices w
    ∧ length (threads w') = length (threads w) + length (devices w)
    ∧ (∀ r, loops w' r = loops w r + length (filter (λ x, x = r) (devices w)))
    ∧ (NoDup (devices w) → ∀ r, r ∈ devices w → loops w' r = S (loops w r))
    ∧ (∀ r, r ∈ devices w → running w' r = Some true)
    ∧ (∀ r, r ∉ devices w → running w' r = running w r)
    ∧ last (trace w')
      = Some (FromMain, Log INFO ("所有 " +:+ pretty (length (devices w))
                                   +:+ " 个虚拟设备已启动")).
Proof.
  intros Hm Ht Hdom.
  destruct (start_all_run w rest Hm Ht Hdom)
    as (w' & Hrun & Hm' & Ht' & Hd' & Hth' & Hl' & Hr' & Hn' & Hlast).
  exists w'. split_and!; try done.
  intros Hnd r Hr. rewrite Hl'. clear -Hnd Hr.
  induction Hnd as [| r0 rs Hnin Hnd IH]; [by apply not_elem_of_nil in Hr |].
  rewrite filter_cons. apply elem_of_cons in Hr as [-> | Hin].
  - rewrite decide_True by done. cbn [length].
    rewrite (filter_none (λ x, x = r0) rs); [cbn; lia |].
    apply Forall_forall. by intros x Hx ->.
  - rewrite decide_False by (by intros ->). by apply IH.
Qed.

End StartAll.

(** ** The registry *)

Lemma adds_starts (rs : list ref) : omap adds (map (λ r, Call (Start r)) rs) = [].
Proof. induction rs as [| r rs IH]; [done | by cbn]. Qed.

Lemma adds_stops (rs : list ref) : omap adds (map (λ r, Call (Stop r)) rs) = [].
Proof. induction rs as [| r rs IH]; [done | by cbn]. Qed.

Lemma registry_step (env : Env) (a : actor) (w w' : World) :
  step env a w = Some w' →
  devices w' ++ pending w' = devices w ++ pending w.
Proof.
  destruct a as [| t]; cbn [step]; intros Hstep.
  - apply step_main_spec in Hstep. unfold pending.
    destruct Hstep as [c cs Hm Ht | r k d Hm Hd | r k d Hm Hd | r k d Hm Hd
                      | k Hm | k Hm | r k Hm Hj | msg k Hm];
      cbn [main todo devices add_trace set_threads set_store set_main
           set_todo set_devices]; rewrite Hm; try rewrite Ht; try done.
    + cbn [omap list_omap adds]. destruct (added c); by rewrite ?app_nil_r.
    + cbn [omap list_omap adds added]. by rewrite <- !app_assoc.
    + by rewrite omap_app, adds_starts.
    + by rewrite omap_app, adds_stops.
  - apply step_thread_inv in Hstep
      as (th & d & p' & d' & es & _ & _ & _ & Hm & Ht & Hd & _).
    unfold pending. by rewrite Hm, Ht, Hd.
Qed.

(** X4. The registry is only ever appended to, and only by [add_device]:
    along every run the registered devices followed by the devices the
    control thread has still to register stay the same list. So a run
    leaves the registry as it was plus the first few of the pending
    devices, in order, and no device is ever taken out or moved. *)
Theorem registry_append_only (env : Env) (sched : list actor) (w w' : World) :
  run env sched w = Some w' →
  devices w' ++ pending w' = devices w ++ pending w
  ∧ ∃ rs, devices w' = devices w ++ rs ∧ pending w = rs ++ pending w'.
Proof.
  intros Hrun.
  assert (devices w' ++ pending w' = devices w ++ pending w
          ∧ length (devices w) ≤ length (devices w')) as [Heq Hlen].
  { revert w Hrun. induction sched as [| a sched IH]; intros w Hrun.
    - by injection Hrun as ->.
    - cbn [run] in Hrun. destruct (step env a w) as [w1 |] eqn:Hstep; [| done].
      cbn in Hrun. destruct (IH _ Hrun) as [Heq Hlen].
      pose proof (registry_step env a w w1 Hstep) as H1.
      split; [congruence |].
      etrans; [| exact Hlen].
      destruct a as [| t]; cbn [step] in Hstep.
      + apply step_main_spec in Hstep.
        destruct Hstep; cbn [devices add_trace set_threads set_store set_main
                             set_todo set_devices]; rewrite ?length_app; lia.
      + apply step_thread_inv in Hstep
          as (th & d & p' & d' & es & _ & _ & _ & _ & _ & -> & _). done. }
  split; [done |].
  exists (drop (length (devices w)) (devices w')).
  assert (Hd : devices w' = devices w ++ drop (length (devices w)) (devices w')).
  { rewrite <- (take_drop (length (devices w)) (devices w')) at 1. f_equal.
    apply (f_equal (take (length (devices w)))) in Heq.
    rewrite take_app_le in Heq by done. by rewrite take_app_length in Heq. }
  split; [done |].
  rewrite Hd in Heq at 1. rewrite <- app_assoc in Heq.
  by apply app_inv_head in Heq.
Qed.

(** ** Whole runs *)

Section Runs.

Context (env : Env).

Lemma run_invariant (P : World → Prop) :
  (∀ a w w', P w → step env a w = Some w' → P w') →
  ∀ sched w w', P w → run env sched w = Some w' → P w'.
Proof.
  intros Hstep sched. induction sched as [| a sched IH]; intros w w' HP Hrun.
  - by injection Hrun as <-.
  - cbn [run] in Hrun. destruct (step env a w) as [w1 |] eqn:E; [| done].
    cbn in Hrun. eauto.
Qed.

(** The generators of the sensors and of the base class leave the object
    alone. *)
Lemma generate_data_self (c c' : Ctx) (res : result json) :
  stateless (self c) → generate_data env c = (res, c') → self c' = self c.
Proof.
  destruct c as [d n o], c' as [d' n' o']. destruct d as [id ty cl iv rn th a].
  unfold stateless. cbn [self attrs].
  destruct a as [| bt bh | | | on p]; intros Hs; [| | | | done];
    run_method; repeat case_match; intros ?; congruence.
Qed.

Lemma run_body_self (c c' : Ctx) (res : result unit) :
  stateless (self c) → _run_body env c = (res, c') → self c' = self c.
Proof.
  intros Hs. destruct (generate_data env c) as [r1 c1] eqn:Hgen.
  pose proof (generate_data_self c c1 r1 Hs Hgen) as Hself.
  rewrite (run_body_cases env c c1 r1 Hgen). cbv zeta.
  repeat case_match; by intros [= <- <-].
Qed.

(** What one pass leaves in the log: a publish with its line and the
    device's sleep, or an error line with the sleep of one second. *)
Lemma run_body_events (c c' : Ctx) (res : result unit) :
  _run_body env c = (res, c') →
  ∃ es, out c' = out c ++ es
    ∧ ((∃ payload,
          es = [Publish (mqtt_client (self c)) (data_topic (self c)) payload;
                Log INFO ("设备 " +:+ device_id (self c) +:+ " 发送数据: "
                          +:+ payload);
                Sleep (publish_interval (self c))])
       ∨ (∃ e,
          es = [Log ERROR ("设备 " +:+ device_id (self c) +:+ " 发送数据错误: "
                           +:+ exn_str e);
                Sleep 1])).
Proof.
  destruct (generate_data env c) as [r1 c1] eqn:Hgen.
  rewrite (run_body_cases env c c1 r1 Hgen). cbv zeta.
  repeat case_match; intros [= <- <-]; cbn [out]; eexists; (split; [done |]);
    eauto.
Qed.

(** What a step does to the device at [r]. *)
Lemma step_device (a : actor) (w w' : World) (r : ref) (d : Device) :
  step env a w = Some w' → store w !! r = Some d →
  ∃ d', store w' !! r = Some d'
    ∧ device_id d' = device_id d ∧ device_type d' = device_type d
    ∧ mqtt_client d' = mqtt_client d
    ∧ publish_interval d' = publish_interval d
    ∧ (attrs d' = attrs d
       ∨ ∃ t th c, a = Loop t ∧ threads w !! t = Some th ∧ target th = r
           ∧ pc th = InTry
           ∧ _run_body env {| self := d; asked := env_calls w; out := [] |}
             = (Ok tt, c)
           ∧ d' = self c).
Proof.
  intros Hstep Hd.
  destruct (step_store env a w w' r d Hstep Hd)
    as (d' & Hd' & Hid & Hty & Hcl & Hiv & Hattrs).
  exists d'. split_and!; try done.
  destruct a as [| t]; [left; by apply Hattrs |].
  cbn [step] in Hstep.
  destruct (step_thread_inv env t w w' Hstep)
    as (th & d0 & p' & d0' & es & Hth & Hd0 & _ & _ & _ & _ & _ & Hs & _ & _
        & Hcase).
  destruct (decide (target th = r ∧ pc th = InTry)) as [[Htgt Hpc] | Hno].
  - right. rewrite Hpc in Hcase. destruct Hcase as (_ & c & Hc & -> & _).
    subst r. rewrite Hd in Hd0. injection Hd0 as <-.
    rewrite Hs, list_lookup_insert_eq in Hd' by (by eapply lookup_lt_Some).
    injection Hd' as <-. exists t, th, c. done.
  - left. apply Hattrs. intros t0 th0 [= <-] Hth0 Htgt Hpc.
    rewrite Hth in Hth0. injection Hth0 as <-. by apply Hno.
Qed.

(** Threads stay where they were started. *)
Lemma step_thread_target (a : actor) (w w' : World) (t : tid) (th : Thread) :
  step env a w = Some w' → threads w !! t = Some th →
  ∃ th', threads w' !! t = Some th' ∧ target th' = target th.
Proof.
  intros Hstep Hth. destruct a as [| t0]; cbn [step] in Hstep.
  - destruct (step_main_threads w w' Hstep) as [-> | [r ->]]; [by exists th |].
    exists th. split; [| done]. by apply lookup_app_l_Some.
  - destruct (step_thread_inv env t0 w w' Hstep)
      as (th0 & d0 & p' & d0' & es & Hth0 & _ & _ & _ & _ & _ & -> & _).
    destruct (decide (t = t0)) as [-> | Hne].
    + rewrite list_lookup_insert_eq by (by eapply lookup_lt_Some).
      rewrite Hth in Hth0. injection Hth0 as <-. by eexists.
    + rewrite list_lookup_insert_ne by done. by exists th.
Qed.

(** What a step adds to the trace. *)
Lemma step_trace (a : actor) (w w' : World) :
  step env a w = Some w' →
  match a with
  | Main => env_calls w' = env_calls w
            ∧ ∃ msgs, trace w' = trace w ++ map (λ m, (FromMain, Log INFO m)) msgs
  | Loop t =>
      ∃ th d es,
        threads w !! t = Some th ∧ store w !! target th = Some d
        ∧ trace w' = trace w ++ map (pair (FromLoop t (target th))) es
        ∧ (es = [] ∧ pc th = AtWhile ∧ env_calls w' = env_calls w
           ∨ pc th = InTry ∧ env_calls w ≤ env_calls w' ∧
             ((∃ payload,
                es = [Publish (mqtt_client d) (data_topic d) payload;
                      Log INFO ("设备 " +:+ device_id d +:+ " 发送数据: "
                                +:+ payload);
                      Sleep (publish_interval d)])
              ∨ (∃ e,
                es = [Log ERROR ("设备 " +:+ device_id d +:+ " 发送数据错误: "
                                 +:+ exn_str e);
                      Sleep 1])))
  end.
Proof.
  intros Hstep. destruct a as [| t]; cbn [step] in Hstep.
  - apply step_main_spec in Hstep.
    destruct Hstep;
      cbn [trace env_calls add_trace set_threads set_store set_main set_todo
           set_devices map]; (split; [done |]);
      first [ by exists []; rewrite app_nil_r | by eexists [_] ].
  - unfold step_thread in Hstep.
    destruct (threads w !! t) as [th |] eqn:Hth; cbn in Hstep; [| done].
    destruct (store w !! target th) as [d |] eqn:Hd; cbn in Hstep; [| done].
    exists th, d. destruct (pc th) eqn:Hpc; [| | done].
    + injection Hstep as <-. exists []. cbn. rewrite app_nil_r.
      split_and!; try done. by left.
    + destruct (_run_body env _) as [res c] eqn:Hc. injection Hstep as <-.
      exists (out c). cbn [trace env_calls add_trace set_threads set_store
                           set_env_calls].
      split_and!; try done. right. split; [done |].
      destruct (run_body_same env _ _ _ Hc) as [_ Hle]. split; [done |].
      destruct (run_body_events _ _ _ Hc) as (es & Hout & Hes).
      cbn [out self app] in Hout, Hes. by rewrite Hout.
Qed.

End Runs.

(** ** The loop of the base class *)

Section BaseClass.

Context (env : Env).

Lemma base_generate (c : Ctx) :
  attrs (self c) = VirtualDevice_attrs →
  generate_data env c = (Raise NotImplementedError, c).
Proof.
  destruct c as [d n o]. destruct d as [id ty cl iv rn th a].
  cbn [self attrs]. by intros ->.
Qed.

Lemma base_pass (d : Device) (n : nat) :
  attrs d = VirtualDevice_attrs →
  _run_body env {| self := d; asked := n; out := [] |}
  = (Ok tt, {| self := d; asked := n;
               out := [Log ERROR ("设备 " +:+ device_id d +:+ " 发送数据错误: ");
                       Sleep 1] |}).
Proof.
  intros Ha.
  by rewrite (run_body_cases env _ _ _ (base_generate {| self := d |} Ha)).
Qed.

(** X5. A device of the base class [VirtualDevice] can be started like
    any other, but its loop never publishes: [generate_data] raises
    [NotImplementedError], so every pass logs an error line whose message
    part is empty, sleeps one second, asks the surroundings nothing and
    leaves the object as it was, along every run. *)
Theorem base_class_loop_only_fails (sched : list actor) (w w' : World)
    (r : ref) (d : Device) :
  store w !! r = Some d → attrs d = VirtualDevice_attrs →
  run env sched w = Some w' →
  publishes w' r = publishes w r
  ∧ ∃ d', store w' !! r = Some d' ∧ attrs d' = VirtualDevice_attrs
      ∧ device_id d' = device_id d
      ∧ ∀ t th, threads w' !! t = Some th → target th = r → pc th = InTry →
          ∃ w'', step env (Loop t) w' = Some w''
            ∧ trace w'' = trace w' ++
                [(FromLoop t r, Log ERROR ("设备 " +:+ device_id d
                                           +:+ " 发送数据错误: "));
                 (FromLoop t r, Sleep 1)]
            ∧ store w'' = store w' ∧ env_calls w'' = env_calls w'
            ∧ threads w'' = <[t := set_pc AtWhile th]> (threads w').
Proof.
  intros Hd Ha Hrun.
  set (P := λ w1 : World,
         publishes w1 r = publishes w r
         ∧ ∃ d1, store w1 !! r = Some d1 ∧ attrs d1 = VirtualDevice_attrs
                 ∧ device_id d1 = device_id d).
  assert (HP : P w') .
  { apply (run_invariant env P) with (sched := sched) (w := w);
      [| by split; [| exists d] | done].
    clear. intros a w1 w2 (Hpub & d1 & Hd1 & Ha1 & Hid1) Hstep. split.
    - rewrite <- Hpub. pose proof (step_trace env a w1 w2 Hstep) as Htr.
      destruct a as [| t].
      + destruct Htr as (_ & msgs & Htr). eapply publishes_app; [exact Htr |].
        by apply Forall_map, Forall_true.
      + cbn [step] in Hstep.
        destruct (step_thread_inv env t w1 w2 Hstep)
          as (th & d0 & p' & d0' & es & Hth & Hd0 & _ & _ & _ & _ & _ & _ & _
              & Htr' & Hcase).
        eapply publishes_app; [exact Htr' |]. apply Forall_map.
        destruct (decide (target th = r)) as [Htgt | Hne].
        * rewrite Htgt, Hd1 in Hd0. injection Hd0 as <-.
          destruct (pc th); [| | done].
          -- destruct Hcase as (_ & _ & ->). constructor.
          -- destruct Hcase as (_ & c & Hc & _ & ->).
             rewrite (base_pass d1 _ Ha1) in Hc. injection Hc as <-.
             by repeat constructor.
        * apply Forall_true. intros e. cbn. destruct e; try done.
          by rewrite bool_decide_false.
    - destruct (step_device env a w1 w2 r d1 Hstep Hd1)
        as (d2 & Hd2 & Hid & _ & _ & _ & Hattrs).
      exists d2. split; [done |]. split; [| congruence].
      destruct Hattrs as [-> | (t & th & c & _ & _ & _ & _ & Hc & ->)]; [done |].
      rewrite (base_pass d1 _ Ha1) in Hc. by injection Hc as <-. }
  destruct HP as (Hpub & d' & Hd' & Ha' & Hid'). split; [done |].
  exists d'. split_and!; try done.
  intros t th Hth Htgt Hpc. subst r.
  destruct (step_thread_in_try env w' t th d' Hth Hpc Hd') as (c & Hc & Hstep).
  rewrite (base_pass d' _ Ha') in Hc. injection Hc as <-.
  eexists. split; [exact Hstep |].
  cbn [trace store env_calls threads set_threads add_trace set_env_calls
       set_store asked out self map].
  rewrite Hid'. split_and!; try done. by apply list_insert_id.
Qed.

End BaseClass.

(** ** Where the entries of the trace come from *)

Section Trace.

Context (env : Env).

Lemma data_topic_fields (d d' : Device) :
  device_id d' = device_id d → device_type d' = device_type d →
  data_topic d' = data_topic d.
Proof. unfold data_topic. by intros -> ->. Qed.

Lemma event_ok_step (a : actor) (w w' : World) (e : origin * event) :
  step env a w = Some w' → event_ok w e → event_ok w' e.
Proof.
  intros Hstep. destruct e as [[| t r] ev]; [done |].
  intros (th & d & Hth & Htgt & Hd & Hev).
  destruct (step_thread_target env a w w' t th Hstep Hth) as (th' & Hth' & Htgt').
  destruct (step_store env a w w' r d Hstep Hd)
    as (d' & Hd' & Hid & Hty & Hcl & Hiv & _).
  exists th', d'. split_and!; try done; [congruence |].
  destruct ev; [| done |].
  - by rewrite Hcl, (data_topic_fields d d').
  - by rewrite Hiv.
Qed.

(** X6. Every entry of the trace can be traced back, along every run:
    the control thread only logs, at level INFO; what a loop thread left
    is filed under the device that thread was started on, each of its
    publishes went to that device's client on that device's topic, each
    of its sleeps lasted one second or that device's interval, and its
    log lines are at INFO or ERROR. *)
Theorem trace_provenance (sched : list actor) (w w' : World) :
  Forall (event_ok w) (trace w) → run env sched w = Some w' →
  Forall (event_ok w') (trace w').
Proof.
  intros Hw Hrun.
  apply (run_invariant env (λ w1, Forall (event_ok w1) (trace w1)))
    with (sched := sched) (w := w); [| done | done].
  clear. intros a w1 w2 Hok Hstep.
  pose proof (step_trace env a w1 w2 Hstep) as Htr.
  assert (Hold : Forall (event_ok w2) (trace w1)).
  { eapply Forall_impl; [exact Hok |]. intros e. by apply (event_ok_step a w1 w2). }
  destruct a as [| t].
  - destruct Htr as (_ & msgs & ->). apply Forall_app. split; [done |].
    by apply Forall_map, Forall_true.
  - destruct Htr as (th & d & es & Hth & Hd & -> & Hes).
    apply Forall_app. split; [done |]. apply Forall_map.
    destruct (step_thread_target env _ w1 w2 t th Hstep Hth)
      as (th' & Hth' & Htgt').
    destruct (step_store env _ w1 w2 _ d Hstep Hd)
      as (d' & Hd' & Hid & Hty & Hcl & Hiv & _).
    assert (Hev : ∀ ev,
      match ev with
      | Publish c topic _ => c = mqtt_client d' ∧ topic = data_topic d'
      | Log l _ => l = INFO ∨ l = ERROR
      | Sleep secs => secs = 1%Q ∨ secs = publish_interval d'
      end → event_ok w2 (FromLoop t (target th), ev)).
    { intros ev Hev. by exists th', d'. }
    rewrite <- Hcl, <- Hiv, <- Hid, <- (data_topic_fields d d') in Hes by done.
    destruct Hes as [(-> & _) | (_ & _ & [[payload ->] | [e ->]])].
    + constructor.
    + repeat constructor; apply Hev; auto.
    + repeat constructor; apply Hev; auto.
Qed.

End Trace.

(** ** Device objects along a run *)

Section Objects.

Context (env : Env).

(** A pass never changes the class of the object, and changes the
    attributes of a switch only. *)
Lemma run_body_class (c c' : Ctx) (res : result unit) :
  _run_body env c = (res, c') →
  match attrs (self c) with
  | SmartSwitch_attrs _ _ => ∃ on p, attrs (self c') = SmartSwitch_attrs on p
  | a => attrs (self c') = a
  end.
Proof.
  intros Hc. destruct (attrs (self c)) as [| bt bh | | | on p] eqn:Ha;
    try (rewrite (run_body_self env c c' res
                    ltac:(unfold stateless; by rewrite Ha) Hc); done).
  destruct c as [d n o]. cbn [self] in Ha.
  pose proof (smart_switch_run env d n o on p Ha) as Hgen. cbv zeta in Hgen.
  rewrite (run_body_cases env _ _ _ Hgen) in Hc. cbv zeta in Hc.
  cbn [self asked out] in Hc.
  destruct (env_publish env _ _ _ _); injection Hc as _ <-; cbn; eauto.
Qed.



(** X8. No run rebinds the id, the type, the client or the interval of a
    device, nor changes its class; the attributes of the sensors (and of
    the base class) stay as the constructor set them, only a switch has
    attributes that move. *)
Theorem device_identity_is_fixed (sched : list actor) (w w' : World)
    (r : ref) (d : Device) :
  store w !! r = Some d → run env sched w = Some w' →
  ∃ d', store w' !! r = Some d'
    ∧ device_id d' = device_id d ∧ device_type d' = device_type d
    ∧ mqtt_client d' = mqtt_client d
    ∧ publish_interval d' = publish_interval d
    ∧ data_topic d' = data_topic d
    ∧ match attrs d with
      | SmartSwitch_attrs _ _ => ∃ on p, attrs d' = SmartSwitch_attrs on p
      | a => attrs d' = a
      end.
Proof.
  intros Hd Hrun.
  set (P := λ w1 : World, ∃ d1, store w1 !! r = Some d1
    ∧ device_id d1 = device_id d ∧ device_type d1 = device_type d
    ∧ mqtt_client d1 = mqtt_client d
    ∧ publish_interval d1 = publish_interval d
    ∧ match attrs d with
      | SmartSwitch_attrs _ _ => ∃ on p, attrs d1 = SmartSwitch_attrs on p
      | a => attrs d1 = a
      end).
  assert (HP : P w').
  { apply (run_invariant env P) with (sched := sched) (w := w); [| | done].
    - clear. intros a w1 w2 (d1 & Hd1 & Hid & Hty & Hcl & Hiv & Ha) Hstep.
      destruct (step_device env a w1 w2 r d1 Hstep Hd1)
        as (d2 & Hd2 & Hid2 & Hty2 & Hcl2 & Hiv2 & Hattrs).
      exists d2. split_and!; try congruence.
      destruct Hattrs as [-> | (t & th & c & _ & _ & _ & _ & Hc & ->)]; [done |].
      apply run_body_class in Hc. cbn [self] in Hc.
      revert Ha. destruct (attrs d); intros Ha;
        try (by rewrite Ha in Hc).
      destruct Ha as (on & p & Ha). by rewrite Ha in Hc.
    - exists d. split_and!; try done. destruct (attrs d); eauto. }
  destruct HP as (d' & Hd' & Hid & Hty & Hcl & Hiv & Ha).
  exists d'. split_and!; try done. by apply data_topic_fields.
Qed.

End Objects.

(** ** After the flag has gone down *)

Section FlagDown.

Context (env : Env).

Lemma published_app (w w' : World) (t : tid) (es : list (origin * event)) :
  trace w' = trace w ++ es →
  published w' t = published w t + length (List.filter (published_by t) es).
Proof. intros E. unfold published. by rewrite E, List.filter_app, length_app. Qed.

(** Unless a call that starts the device is still to come, a flag that is
    down stays down. *)
Lemma flag_down_step (a : actor) (w w' : World) (r : ref) :
  running w r = Some false → never_starts w r → step env a w = Some w' →
  running w' r = Some false ∧ never_starts w' r.
Proof.
  intros Hr Hns Hstep. destruct a as [| t]; cbn [step] in Hstep.
  - apply step_main_spec in Hstep.
    destruct Hstep as [c cs Hm Ht | r0 k d Hm Hd | r0 k d Hm Hd | r0 k d Hm Hd
                      | k Hm | k Hm | r0 k Hm Hj | msg k Hm].
    + split; [done |]. destruct Hns as [_ Hto]. rewrite Ht in Hto.
      apply Forall_cons in Hto as [Hc Hcs]. split; cbn [main todo set_main set_todo].
      * constructor; [| done]. by intros ? [= <-].
      * done.
    + destruct (never_starts_cons w r _ _ Hns Hm) as [Hc Hk].
      assert (Hne : r ≠ r0) by (intros ->; apply Hc; by left).
      split.
      * unfold running in *.
        cbn [store add_trace set_threads set_store set_main].
        by rewrite list_lookup_insert_ne.
      * split; [done | apply Hns].
    + destruct (never_starts_cons w r _ _ Hns Hm) as [_ Hk]. split.
      * pose proof (running_flag (set_main (Join r0 :: LogInfo (stopped_msg d) :: k) w)
                      r r0 d false Hd) as E.
        cbn [store set_main] in E. unfold running in *.
        cbn [store set_store set_main] in *. rewrite E.
        by destruct (decide (r = r0)).
      * split; [| apply Hns]. cbn [main set_store set_main].
        by repeat constructor.
    + destruct (never_starts_cons w r _ _ Hns Hm) as [_ Hk].
      split; [done |]. split; [done | apply Hns].
    + destruct (never_starts_cons w r _ _ Hns Hm) as [Hc _].
      exfalso. apply Hc. by right.
    + destruct (never_starts_cons w r _ _ Hns Hm) as [_ Hk].
      split; [done |]. split; [| apply Hns]. cbn [main set_main].
      apply Forall_app. split.
      * apply Forall_map, Forall_true. intros r1 c [= <-] [? | ?]; done.
      * by constructor.
    + split; [done |]. split; [| apply Hns]. cbn [main set_main].
      destruct Hns as [Hmn _]. rewrite Hm in Hmn.
      by apply Forall_cons in Hmn as [_ ?].
    + split; [done |]. split; [| apply Hns]. cbn [main add_trace set_main].
      destruct Hns as [Hmn _]. rewrite Hm in Hmn.
      by apply Forall_cons in Hmn as [_ ?].
  - rewrite (step_thread_running env t w w' r Hstep). split; [done |].
    destruct (step_thread_inv env t w w' Hstep)
      as (th & d & p' & d' & es & _ & _ & _ & Hm & Ht & _).
    unfold never_starts. by rewrite Hm, Ht.
Qed.

(** X9. [stop] does not interrupt a loop; it only lowers the flag. Once
    the flag of a device is down, and as long as the device is not started
    again, a thread of its loop publishes at most once more, and only if
    it was inside a pass when the flag went down; a thread that was at the
    [while] test publishes nothing more. The flag stays down. *)
Theorem one_more_publish_at_most (sched : list actor) (w w' : World)
    (t : tid) (th : Thread) :
  threads w !! t = Some th →
  running w (target th) = Some false → never_starts w (target th) →
  run env sched w = Some w' →
  published w' t ≤ published w t + 1
  ∧ (pc th ≠ InTry → published w' t = published w t)
  ∧ running w' (target th) = Some false.
Proof.
  intros Hth Hr Hns Hrun.
  set (r := target th) in *.
  set (P := λ w1 : World,
    running w1 r = Some false ∧ never_starts w1 r
    ∧ ∃ th1, threads w1 !! t = Some th1 ∧ target th1 = r
        ∧ (pc th1 = InTry → pc th = InTry ∧ published w1 t = published w t)
        ∧ (pc th ≠ InTry → published w1 t = published w t)
        ∧ published w1 t ≤ published w t + 1).
  assert (HP : P w').
  { apply (run_invariant env P) with (sched := sched) (w := w); [| | done].
    - clear Hth Hr Hns Hrun.
      intros a w1 w2 (Hr1 & Hns1 & th1 & Hth1 & Htgt1 & Hin & Hout & Hle) Hstep.
      destruct (flag_down_step a w1 w2 r Hr1 Hns1 Hstep) as [Hr2 Hns2].
      split; [done |]. split; [done |].
      pose proof (step_trace env a w1 w2 Hstep) as Htr.
      destruct a as [| t0].
      + destruct Htr as (_ & msgs & Htr).
        assert (E : published w2 t = published w1 t).
        { rewrite (published_app w1 w2 t _ Htr).
          assert (Hnil : List.filter (published_by t)
                           (map (λ m, (FromMain, Log INFO m)) msgs) = []).
          { clear. induction msgs as [| m msgs IH]; [done | by cbn]. }
          rewrite Hnil. cbn. lia. }
        cbn [step] in Hstep.
        exists th1. rewrite E. split_and!; try done.
        destruct (step_main_threads w1 w2 Hstep) as [-> | [r0 ->]]; [done |].
        by apply lookup_app_l_Some.
      + cbn [step] in Hstep.
        destruct (step_thread_inv env t0 w1 w2 Hstep)
          as (th0 & d0 & p' & d0' & es & Hth0 & Hd0 & Hpc0 & _ & _ & _ & Hts & _
              & _ & Htr' & Hcase).
        destruct (decide (t0 = t)) as [-> | Hne].
        * rewrite Hth1 in Hth0. injection Hth0 as <-.
          exists (set_pc p' th1). rewrite Hts.
          rewrite list_lookup_insert_eq by (by eapply lookup_lt_Some).
          split; [done |]. split; [done |]. cbn [pc set_pc].
          assert (Hrun0 : is_running d0 = false).
          { unfold running in Hr1. rewrite <- Htgt1, Hd0 in Hr1.
            by injection Hr1. }
          destruct (pc th1) eqn:Hpc1; [| | done].
          -- destruct Hcase as (-> & _ & ->). rewrite Hrun0.
             assert (E : published w2 t = published w1 t).
             { rewrite (published_app w1 w2 t _ Htr'). cbn. lia. }
             rewrite E. split_and!; try done.
          -- destruct Hcase as (-> & c & Hc & _ & ->).
             destruct (Hin eq_refl) as [Hpc E1].
             destruct (run_body_events env _ _ _ Hc) as (es & Hes & Hshape).
             cbn [out app] in Hes.
             assert (E : published w2 t ≤ published w1 t + 1).
             { rewrite (published_app w1 w2 t _ Htr'), Hes.
               destruct Hshape as [[payload ->] | [e ->]]; cbn;
                 [rewrite bool_decide_true by done |]; cbn; lia. }
             split_and!; try done. lia.
        * exists th1. rewrite Hts, list_lookup_insert_ne by done.
          assert (E : published w2 t = published w1 t).
          { rewrite (published_app w1 w2 t _ Htr').
            assert (Hnil : List.filter (published_by t)
                             (map (pair (FromLoop t0 (target th0))) es) = []).
            { clear -Hne. induction es as [| e es IH]; [done |].
              cbn. destruct e; try done. by rewrite bool_decide_false. }
            rewrite Hnil. cbn. lia. }
          rewrite E. done.
    - split; [done |]. split; [done |]. exists th. split_and!; try done. lia. }
  destruct HP as (Hr' & _ & th1 & _ & _ & _ & Hout & Hle). done.
Qed.

End FlagDown.

(** ** Starting the fleet and stopping it again *)

Section Fleet.

Context (env : Env).

Lemma loops_set_main (w : World) (k : list instr) (r : ref) :
  loops (set_main k w) r = loops w r.
Proof. done. Qed.

Lemma fleet_phase_step (rest : list call) (D : list ref) (a : actor)
    (w w' : World) :
  NoDup D →
  fleet_phase rest D w → step env a w = Some w' → fleet_phase rest D w'.
Proof.
  intros Hnd [(Hpos & Hdev & Hz) | [(Ht & Hdev & Hst) | Hstop]] Hstep.
  - (* before the first [start] *)
    destruct a as [| t]; cbn [step] in Hstep.
    + unfold step_main in Hstep.
      destruct Hpos as [[Hm Ht] | [Hm Ht]]; rewrite Hm in Hstep.
      * rewrite Ht in Hstep. injection Hstep as <-. left.
        split; [by right |]. done.
      * injection Hstep as <-. right. left.
        cbn [todo devices set_main]. split; [done |]. split; [done |].
        eexists [], D, _. cbn [main set_main]. rewrite Hdev.
        split_and!; try done. intros r Hr. by apply not_elem_of_nil in Hr.
    + destruct (step_thread_inv env t w w' Hstep)
        as (th & d & p' & d' & es & _ & _ & _ & Hm & Ht & Hd & _).
      left. rewrite Hm, Ht, Hd. split_and!; try done.
      intros r Hr. eapply step_thread_loops_zero; eauto.
  - (* inside [start_all_devices] *)
    destruct Hst as (started & waiting & msg & HD & Hm & Hs & Hz).
    destruct a as [| t]; cbn [step] in Hstep.
    + unfold step_main in Hstep. rewrite Hm in Hstep.
      destruct waiting as [| r waiting]; cbn [map app] in Hstep.
      * injection Hstep as <-. right. right. left.
        cbn [main todo devices add_trace set_main stops].
        rewrite app_nil_r in HD. subst started.
        split; [by left |]. split; [by cbn [stops devices add_trace set_main] |].
        intros r Hr. eapply sole_loop_ext; [| | by apply Hs]; done.
      * assert (Hnin : (r ∉ started) ∧ (r ∉ waiting)).
        { rewrite HD in Hnd. apply NoDup_app in Hnd as (_ & Hdisj & Hl).
          apply NoDup_cons in Hl as [? _]. split; [| done].
          intros Hin. apply (Hdisj r Hin). by left. }
        destruct Hnin as [Hns Hnl].
        pose proof Hstep as Hstart.
        unfold start in Hstep. cbn [store set_main] in Hstep.
        destruct (store w !! r) as [d |] eqn:Hd; [| done].
        cbn [mbind option_bind] in Hstep. injection Hstep as Hw'.
        right. left. rewrite <- Hw'.
        cbn [todo devices add_trace set_threads set_store set_main].
        split; [done |]. split; [done |].
        exists (started ++ [r]), waiting, msg. rewrite Hw'.
        split; [by rewrite <- app_assoc |].
        split; [by rewrite <- Hw' |]. split.
        -- intros r' [Hr' | ->%list_elem_of_singleton]%elem_of_app.
           ++ eapply start_other_sole_loop; [| exact Hstart |].
              ** by intros ->.
              ** eapply sole_loop_ext; [| | by apply Hs]; done.
           ++ eapply start_sole_loop; [| exact Hstart].
              rewrite loops_set_main. apply Hz. by left.
        -- intros r' Hr'. rewrite <- Hw'.
           erewrite loops_snoc by reflexivity.
           cbn [threads set_main]. fold (loops w r').
           rewrite (Hz r') by (by right).
           rewrite decide_False; [done |].
           intros [Htgt _]. cbn in Htgt. by subst r'.
    + destruct (step_thread_inv env t w w' Hstep)
        as (th & d & p' & d' & es & _ & _ & _ & Hm' & Ht' & Hd' & _).
      right. left. rewrite Ht', Hd'. split; [done |]. split; [done |].
      exists started, waiting, msg. rewrite Hm'. split_and!; try done.
      * intros r Hr. eapply step_thread_sole_loop; eauto.
      * intros r Hr. eapply step_thread_loops_zero; eauto.
  - right. right. by eapply stop_phase_step.
Qed.

(** [stop_all_devices] from its call to its return: there is a run. *)
Lemma stop_all_run (w : World) (rest : list call) :
  main w = [] → todo w = StopAll :: rest → well_formed w →
  (∀ r, r ∈ devices w → is_Some (store w !! r)) →
  ∃ sched w',
    length sched ≤ 5 * length (devices w) + 3
    ∧ run env sched w = Some w' ∧ main w' = [] ∧ todo w' = rest.
Proof.
  intros Hm Ht Hwf Hdom.
  set (w1 := set_main [Call StopAll] (set_todo rest w)).
  set (w2 := set_main (map (λ r, Call (Stop r)) (devices w)
                       ++ [LogInfo "所有虚拟设备已停止"]) w1).
  assert (H1 : step env Main w = Some w1).
  { cbn [step]. unfold step_main. by rewrite Hm, Ht. }
  assert (H2 : step env Main w1 = Some w2) by done.
  assert (Hwf2 : well_formed w2) by done.
  destruct (stops_progress env (devices w) w2 [LogInfo "所有虚拟设备已停止"]
              eq_refl Hdom Hwf2)
    as (sched & w3 & Hlen & Hrun & Hm3 & Ht3 & _).
  set (w4 := add_trace FromMain [Log INFO "所有虚拟设备已停止"] (set_main [] w3)).
  assert (H4 : step env Main w3 = Some w4).
  { cbn [step]. unfold step_main. by rewrite Hm3. }
  exists (Main :: Main :: sched ++ [Main]), w4. split.
  { cbn [length]. rewrite length_app. cbn [length]. lia. }
  split; [| done].
  rewrite (run_cons env _ _ _ _ H1), (run_cons env _ _ _ _ H2).
  rewrite run_app, Hrun. cbn [mbind option_bind].
  by rewrite (run_cons env _ _ _ _ H4).
Qed.

(** X10. What the program does with its fleet: [start_all_devices], then
    [stop_all_devices]. When no device is registered twice and none has a
    loop beforehand, then however the threads are interleaved, once
    [stop_all_devices] has returned every registered device has its flag
    down and no loop left, and the registry is as it was; and there is a
    run in which both calls return. *)
Theorem start_all_then_stop_all (w : World) (rest : list call) :
  main w = [] → todo w = StartAll :: StopAll :: rest →
  NoDup (devices w) → (∀ r, r ∈ devices w → loops w r = 0) →
  (∀ sched w',
     run env sched w = Some w' → main w' = [] → todo w' = rest →
     devices w' = devices w
     ∧ ∀ r, r ∈ devices w → running w' r = Some false ∧ loops w' r = 0)
  ∧ (well_formed w → (∀ r, r ∈ devices w → is_Some (store w !! r)) →
     ∃ sched w',
       length sched ≤ 6 * length (devices w) + 6
       ∧ run env sched w = Some w' ∧ main w' = [] ∧ todo w' = rest).
Proof.
  intros Hm Ht Hnd Hz. split.
  - intros sched w' Hrun Hm' Ht'.
    assert (Hph : fleet_phase rest (devices w) w').
    { apply (run_invariant env (fleet_phase rest (devices w)))
        with (sched := sched) (w := w); [| | done].
      - intros a w1 w2. by apply fleet_phase_step.
      - left. split; [by left |]. done. }
    assert (Hreg : devices w' ++ pending w' = devices w ++ pending w).
    { apply (run_invariant env
               (λ w1, devices w1 ++ pending w1 = devices w ++ pending w))
        with (sched := sched) (w := w); [| done | done].
      intros a w1 w2 <-. by apply (registry_step env a). }
    split.
    { unfold pending in Hreg. rewrite Hm, Ht, Hm', Ht' in Hreg.
      cbn in Hreg. by apply app_inv_tail in Hreg. }
    destruct Hph as [(Hpos & _) | [(Ht1 & _) | Hstop]].
    + exfalso. destruct Hpos as [[_ Ht1] | [_ Ht1]];
        rewrite Ht' in Ht1; apply (f_equal length) in Ht1; cbn in Ht1; lia.
    + exfalso. rewrite Ht' in Ht1. apply (f_equal length) in Ht1.
      cbn in Ht1. lia.
    + by apply (stop_phase_returned StopAll rest (devices w) w').
  - intros Hwf Hdom.
    destruct (start_all_run env w (StopAll :: rest) Hm Ht Hdom)
      as (w1 & Hrun1 & Hm1 & Ht1 & Hd1 & _ & _ & Hr1 & _).
    assert (Hwf1 : well_formed w1) by (by eapply well_formed_run).
    assert (Hdom1 : ∀ r, r ∈ devices w1 → is_Some (store w1 !! r)).
    { intros r Hr. apply running_is_Some. rewrite Hr1 by (by rewrite <- Hd1).
      done. }
    destruct (stop_all_run w1 rest Hm1 Ht1 Hwf1 Hdom1)
      as (sched & w2 & Hlen & Hrun2 & Hm2 & Ht2).
    exists (replicate (length (devices w) + 3) Main ++ sched), w2. split.
    { rewrite length_app, length_replicate. rewrite Hd1 in Hlen. lia. }
    split; [| done]. by rewrite run_app, Hrun1.
Qed.

End Fleet.

(** ** Data topics read back as control topics *)

Section RoundTrip.

Context {command : Type}.
Context (loads : string → result command) (show : command → string).

Lemma split_data_topic (d : Device) :
  occurs "/" (device_type d) = 0 → occurs "/" (device_id d) = 0 →
  split "/" (data_topic d) = ["devices"; device_type d; device_id d; "data"].
Proof.
  intros Hty Hid. unfold data_topic.
  change ("devices/" +:+ device_type d +:+ "/" +:+ device_id d +:+ "/data")
    with ("devices" +:+ String "/" (device_type d +:+
            String "/" (device_id d +:+ String "/" "data"))).
  by rewrite !split_app, split_free.
Qed.

(** X11. The topic a device publishes on and the way [on_message] takes
    a topic apart fit together: when neither the type nor the id holds a
    slash, the data topic has the four levels [devices], type, id, [data],
    and [on_message] reads the device's own type and id back from it. With
    a slash in the type the levels shift, and what is read as the id is
    the rest of the type. *)
Theorem data_topic_read_back (d : Device) (payload : string) (c : command) :
  loads payload = Ok c → occurs "/" (device_id d) = 0 →
  (occurs "/" (device_type d) = 0 →
   split "/" (data_topic d) = ["devices"; device_type d; device_id d; "data"]
   ∧ on_message loads show (data_topic d) payload
     = [Log INFO ("收到设备控制命令: " +:+ device_type d +:+ "/" +:+ device_id d
                  +:+ " -> " +:+ show c)])
  ∧ (∀ a b, device_type d = a +:+ "/" +:+ b →
       occurs "/" a = 0 → occurs "/" b = 0 →
       split "/" (data_topic d) = ["devices"; a; b; device_id d; "data"]
       ∧ on_message loads show (data_topic d) payload
         = [Log INFO ("收到设备控制命令: " +:+ a +:+ "/" +:+ b
                      +:+ " -> " +:+ show c)]).
Proof.
  intros Hl Hid. split.
  - intros Hty. pose proof (split_data_topic d Hty Hid) as E.
    split; [done |]. unfold on_message, on_message_try. rewrite E. cbn.
    by rewrite Hl.
  - intros a b Hab Ha Hb.
    assert (E : split "/" (data_topic d) = ["devices"; a; b; device_id d; "data"]).
    { unfold data_topic. rewrite Hab.
      assert (E1 : "devices/" +:+ (a +:+ "/" +:+ b) +:+ "/" +:+ device_id d
                     +:+ "/data"
                   = "devices" +:+ String "/" (a +:+ String "/" (b +:+
                       String "/" (device_id d +:+ String "/" "data")))).
      { change ("devices/" +:+ (a +:+ "/" +:+ b) +:+ "/" +:+ device_id d
                  +:+ "/data")
          with ("devices" +:+ String "/" ((a +:+ String "/" b) +:+
                  String "/" (device_id d +:+ String "/" "data"))).
        do 2 f_equal. clear. induction a as [| x a IH]; [done |].
        rewrite !append_cons. by rewrite IH. }
      rewrite E1. by rewrite !split_app, split_free. }
    split; [done |]. unfold on_message, on_message_try. rewrite E. cbn.
    by rewrite Hl.
Qed.

End RoundTrip.

(** ** A loop that is left alone *)

Section Passes.

Context (env : Env).

(** X12. A loop does publish: with the flag up and a client that accepts
    every publish, the loop of a device of any class but the base class
    publishes once in every pass, so [n] times in [n] passes, and is back
    at the [while] test with the flag still up. *)
Theorem loop_publishes_each_pass (n : nat) (w : World) (t : tid)
    (th : Thread) (d : Device) :
  threads w !! t = Some th → pc th = AtWhile →
  store w !! target th = Some d → is_running d = true →
  attrs d ≠ VirtualDevice_attrs →
  (∀ k cl topic payload, env_publish env k cl topic payload = None) →
  ∃ w',
    run env (replicate (2 * n) (Loop t)) w = Some w'
    ∧ published w' t = published w t + n
    ∧ threads w' = threads w
    ∧ running w' (target th) = Some true
    ∧ main w' = main w ∧ todo w' = todo w.
Proof.
  intros Hth Hpc Hd Hrun Ha Hacc. revert w d Hth Hd Hrun Ha.
  induction n as [| n IH]; intros w d Hth Hd Hrun Ha.
  - exists w. cbn. split_and!; [done | lia | done | | done | done].
    unfold running. by rewrite Hd, <- Hrun.
  - set (w1 := set_threads (<[t := set_pc InTry th]> (threads w)) w).
    assert (H1 : step env (Loop t) w = Some w1).
    { cbn [step]. unfold step_thread. rewrite Hth. cbn. rewrite Hd. cbn.
      by rewrite Hpc, Hrun. }
    assert (Hth1 : threads w1 !! t = Some (set_pc InTry th)).
    { cbn [threads w1 set_threads].
      by rewrite list_lookup_insert_eq by (by eapply lookup_lt_Some). }
    destruct (step_thread_in_try env w1 t (set_pc InTry th) d Hth1 eq_refl Hd)
      as (c & Hc & H2).
    change (step_thread env t w1) with (step env (Loop t) w1) in H2.
    cbn [target set_pc env_calls threads store w1 set_threads] in Hc, H2.
    destruct (generate_data env {| self := d; asked := env_calls w; out := [] |})
      as [res c1] eqn:Hgen.
    pose proof (generate_data_inv env _ _ _ Hgen) as (_ & _ & Hsame & Hres).
    destruct res as [data | e];
      [| destruct Hres as (_ & Hbase & _); by cbn in Hbase].
    pose proof (run_body_class env _ _ _ Hc) as Hclass.
    rewrite (run_body_cases env _ _ _ Hgen) in Hc. cbv zeta in Hc.
    rewrite Hacc in Hc. cbn [self asked out app] in Hc, Hsame.
    injection Hc as <-. cbn [self asked out] in H2.
    set (w2 := set_threads _ _) in H2.
    assert (E : <[t := set_pc AtWhile (set_pc InTry th)]>
                  (<[t := set_pc InTry th]> (threads w)) = threads w).
    { rewrite list_insert_insert_eq. apply list_insert_id.
      rewrite Hth. f_equal. destruct th as [tg p]. cbn in Hpc. by subst p. }
    destruct (same_but_attrs_fields _ _ Hsame) as (_ & _ & _ & _ & Hr1 & _).
    destruct (IH w2 (self c1)) as (w' & Hrun' & Hp' & Hth' & Hr' & Hm' & Ht').
    + subst w2. cbn [threads set_threads]. by rewrite E.
    + subst w2. cbn [store set_threads add_trace set_env_calls set_store].
      by rewrite list_lookup_insert_eq by (by eapply lookup_lt_Some).
    + congruence.
    + intros Hb. cbn [self] in Hclass. rewrite Hb in Hclass.
      destruct (attrs d); try done. by destruct Hclass as (? & ? & ?).
    + exists w'. replace (2 * S n) with (S (S (2 * n))) by lia.
      cbn [replicate]. rewrite (run_cons env _ _ _ _ H1), (run_cons env _ _ _ _ H2).
      split; [done |]. split_and!; try done.
      * rewrite Hp'. subst w2.
        erewrite (published_app w) by reflexivity.
        cbn. rewrite bool_decide_true by done. cbn. lia.
      * rewrite Hth'. subst w2. cbn [threads set_threads]. by rewrite E.
Qed.

End Passes.

(** ** The further theorems at work on concrete devices *)

(** X1 on a concrete message: a control topic of the subscription. *)
Lemma on_message_parses_witness :
  on_message Scene.loads Demo.dumps "devices/light/light_sensor_001/control" "{}"
  = [Log INFO "收到设备控制命令: light/light_sensor_001 -> {}"].
Proof.
  exact (proj2 (on_message_parses Scene.loads Demo.dumps "devices" "light"
                  "light_sensor_001" "{}" (JObj [])
                  eq_refl eq_refl eq_refl eq_refl) "control").
Defined.

(** X3 on a concrete registry: the sensor registered twice gets two
    loops. *)
Lemma start_all_one_loop_per_entry_witness :
  ∃ w', run (Demo.env Demo.never) (replicate 5 Main) Scene.registered_twice
        = Some w'
        ∧ loops w' 0 = 2 ∧ running w' 0 = Some true.
Proof.
  assert (Hdom : ∀ r, r ∈ devices Scene.registered_twice →
                      is_Some (store Scene.registered_twice !! r)).
  { intros r Hr. change (devices Scene.registered_twice) with [0; 0] in Hr.
    rewrite !elem_of_cons, elem_of_nil in Hr.
    assert (r = 0) as -> by lia. by eexists. }
  destruct (start_all_one_loop_per_entry (Demo.env Demo.never)
              Scene.registered_twice [] eq_refl eq_refl Hdom)
    as (w' & H1 & _ & _ & _ & _ & H2 & _ & H3 & _).
  exists w'. split; [exact H1 |]. split; [exact (H2 0) |].
  apply H3. apply list_elem_of_here.
Defined.

(** X4 on the concrete fleet: eight steps register the four devices. *)
Lemma registry_append_only_witness :
  ∃ rs, devices Scene.registered = [] ++ rs
        ∧ [0; 1; 2; 3] = rs ++ pending Scene.registered.
Proof.
  exact (proj2 (registry_append_only (Demo.env Demo.never) (replicate 8 Main)
                  (Demo.world Scene.fleet Scene.script) Scene.registered
                  eq_refl)).
Defined.

(** X5 on a concrete device of the base class: three more steps of its
    loop. *)
Lemma base_class_loop_only_fails_witness :
  publishes (Demo.after Demo.never [Loop 0; Loop 0; Loop 0] Scene.plain_in_try) 0
  = publishes Scene.plain_in_try 0.
Proof.
  exact (proj1 (base_class_loop_only_fails (Demo.env Demo.never)
                  [Loop 0; Loop 0; Loop 0] Scene.plain_in_try _ 0 _
                  eq_refl eq_refl eq_refl)).
Defined.

(** X6 on the concrete fleet: the trace of the running fleet. *)
Lemma trace_provenance_witness :
  Forall (event_ok Demo.fleet_running) (trace Demo.fleet_running).
Proof.
  exact (trace_provenance (Demo.env Demo.never) Scene.busy
           (Demo.world Scene.fleet Scene.script) Demo.fleet_running
           (Forall_nil_2 _) eq_refl).
Defined.


(** X8 on the concrete fleet: the temperature sensor after its first
    passes. *)
Lemma device_identity_is_fixed_witness :
  ∃ d', store Demo.fleet_running !! 0 = Some d'
        ∧ device_id d' = "temp_sensor_001"
        ∧ data_topic d' = "devices/temperature_humidity/temp_sensor_001/data"
        ∧ attrs d' = TemperatureHumiditySensor_attrs 25 60.
Proof.
  destruct (device_identity_is_fixed (Demo.env Demo.never) Scene.busy
              (Demo.world Scene.fleet Scene.script) Demo.fleet_running
              0 Demo.temp_sensor_001 eq_refl eq_refl)
    as (d' & H1 & H2 & _ & _ & _ & H3 & H4).
  exists d'. split; [exact H1 |]. split; [exact H2 |].
  split; [exact H3 | exact H4].
Defined.

Lemma flag_down_never_starts : never_starts Scene.flag_down 0.
Proof. split; repeat constructor; by intros c [=]. Qed.

(** X9 on a concrete device: the sensor was inside a pass when [stop]
    lowered the flag. *)
Lemma one_more_publish_at_most_witness :
  published (Demo.after Demo.never [Loop 0; Loop 0] Scene.flag_down) 0
  ≤ published Scene.flag_down 0 + 1.
Proof.
  exact (proj1 (one_more_publish_at_most (Demo.env Demo.never) [Loop 0; Loop 0]
                  Scene.flag_down _ 0 _ eq_refl eq_refl flag_down_never_starts
                  eq_refl)).
Defined.

Lemma registered_nodup : NoDup (devices Scene.registered).
Proof.
  change (devices Scene.registered) with [0; 1; 2; 3].
  repeat (apply NoDup_cons; split;
          [rewrite ?elem_of_cons, elem_of_nil; lia |]).
  apply NoDup_nil_2.
Qed.

Lemma registered_well_formed : well_formed Scene.registered.
Proof.
  apply well_formed_fresh; [reflexivity |]. intros r d Hd.
  destruct r as [| [| [| [| r]]]]; cbn in Hd; simplify_eq; reflexivity.
Qed.

Lemma registered_in_store (r : ref) :
  r ∈ devices Scene.registered → is_Some (store Scene.registered !! r).
Proof.
  intros Hr. apply lookup_lt_is_Some.
  change (devices Scene.registered) with [0; 1; 2; 3] in Hr.
  change (length (store Scene.registered)) with 4.
  rewrite !elem_of_cons, elem_of_nil in Hr. lia.
Qed.

(** X10 on the concrete fleet: [start_all], then [stop_all]. *)
Lemma start_all_then_stop_all_witness :
  ∃ sched w',
    run (Demo.env Demo.never) sched Scene.registered = Some w'
    ∧ main w' = [] ∧ todo w' = []
    ∧ ∀ r, r ∈ devices Scene.registered →
        running w' r = Some false ∧ loops w' r = 0.
Proof.
  destruct (start_all_then_stop_all (Demo.env Demo.never) Scene.registered []
              eq_refl eq_refl registered_nodup (λ r _, eq_refl))
    as [Hsafe Hlive].
  destruct (Hlive registered_well_formed registered_in_store)
    as (sched & w' & _ & Hrun & Hm & Ht).
  exists sched, w'. split; [exact Hrun |]. split; [exact Hm |].
  split; [exact Ht |]. exact (proj2 (Hsafe sched w' Hrun Hm Ht)).
Defined.

(** X11 on a concrete device: the data topic of the light sensor. *)
Lemma data_topic_read_back_witness :
  on_message Scene.loads Demo.dumps (data_topic Demo.light_sensor_001) "{}"
  = [Log INFO "收到设备控制命令: light/light_sensor_001 -> {}"].
Proof.
  exact (proj2 (proj1 (data_topic_read_back Scene.loads Demo.dumps
                         Demo.light_sensor_001 "{}" (JObj [])
                         eq_refl eq_refl) eq_refl)).
Defined.

(** X12 on a concrete device: two passes of the started sensor. *)
Lemma loop_publishes_each_pass_witness :
  ∃ w', run (Demo.env Demo.never) (replicate 4 (Loop 0)) Demo.started_once
        = Some w'
        ∧ published w' 0 = published Demo.started_once 0 + 2.
Proof.
  destruct (loop_publishes_each_pass (Demo.env Demo.never) 2 Demo.started_once
              0 _ _ eq_refl eq_refl eq_refl eq_refl
              ltac:(discriminate) (λ _ _ _ _, eq_refl))
    as (w' & H1 & H2 & _).
  exists w'. split; [exact H1 | exact H2].
Defined.
